(** * SR-IOV network operator: drain handshake

    A shallow embedding of the drain handshake of the SR-IOV network
    operator: the event filter of the drain controller
    (controllers/helper.go), the node annotation helper
    (pkg/utils/cluster.go), the vendor plugins' [OnNodeStateChange]
    (pkg/plugins/generic, pkg/plugins/mellanox), the config daemon's
    [nodeStateSyncHandler] (pkg/daemon/daemon.go), and the drain
    coordinator as the specification describes it. *)

From stdpp Require Import base option list gmap strings fin_maps.

Local Open Scope string_scope.
Local Open Scope list_scope.

(** ** Constants of the handshake (package consts)

    The annotation keys and values are declared in package consts, which
    is not embedded here: every definition below takes them from this
    class. *)
Class Consts := {
  NodeDrainAnnotation : string;
  NodeStateDrainAnnotationCurrent : string;
  DrainIdle : string;
  DrainRequired : string;
  RebootRequired : string;
  Draining : string;
  DrainMcpPaused : string;
  DrainComplete : string;
}.

(** The values the tests of the repository spell out
    ("sriovnetwork.openshift.io/state", "Idle", "Drain_Required"), completed
    with the names the specification gives to the grant states. *)
Definition test_consts : Consts := {|
  NodeDrainAnnotation := "sriovnetwork.openshift.io/state";
  NodeStateDrainAnnotationCurrent := "sriovnetwork.openshift.io/current-state";
  DrainIdle := "Idle";
  DrainRequired := "Drain_Required";
  RebootRequired := "Reboot_Required";
  Draining := "Draining";
  DrainMcpPaused := "Draining_MCP_Paused";
  DrainComplete := "DrainComplete";
|}.

(** Go's [error] values: a not-found answer of the API server (what
    [errors.IsNotFound] recognises) or any other error. *)
Inductive goerror :=
| ErrNotFound (name : string)
| ErrOther (msg : string).

Definition IsNotFound (e : goerror) : bool :=
  match e with ErrNotFound _ => true | ErrOther _ => false end.

(** ** Kubernetes objects *)
Module K8s.

(** A Go [map[string]string] field: [None] is the nil map. *)
Abbreviation gomap := (option (gmap string string)).

(** [m[k]] with the comma-ok form: reading a nil map finds nothing. *)
Definition go_lookup (m : gomap) (k : string) : option string :=
  match m with
  | Some m' => m' !! k
  | None => None
  end.

(** [m[k]] in value position: the zero value when the key is absent. *)
Definition go_index (m : gomap) (k : string) : string :=
  default "" (go_lookup m k).

Record ObjectMeta := {
  Name : string;
  Generation : Z;
  Labels : gomap;
  Annotations : gomap;
}.

Record NodeSpec := {
  Unschedulable : bool;
  ProviderID : string;
  Taints : list string;
}.

Record NodeStatus := {
  Phase : string;
  Conditions : list string;
}.

Record Node := {
  meta : ObjectMeta;
  spec : NodeSpec;
  status : NodeStatus;
}.

Definition GetAnnotations (n : Node) : gomap := Annotations (meta n).
Definition GetName (n : Node) : string := Name (meta n).

Definition mk_node (name : string) (annos : gomap) : Node :=
  {| meta := {| Name := name; Generation := 1; Labels := None; Annotations := annos |};
     spec := {| Unschedulable := false; ProviderID := ""; Taints := [] |};
     status := {| Phase := ""; Conditions := [] |} |}.

(** controller-runtime events: the object pointers may be nil. *)
Record CreateEvent := { Object : option Node }.
Record UpdateEvent := { ObjectOld : option Node; ObjectNew : option Node }.

End K8s.

(** ** controllers/helper.go: the drain event filter *)
Module DrainAnnotationPredicate.
Import K8s.

Section WithConsts.
Context `{Consts}.

Definition Create (e : CreateEvent) : bool :=
  match Object e with
  | None => false
  | Some obj =>
      match go_lookup (GetAnnotations obj) NodeDrainAnnotation with
      | Some _ => true
      | None => false
      end
  end.

Definition Update (e : UpdateEvent) : bool :=
  match ObjectOld e with
  | None => false
  | Some objOld =>
      match ObjectNew e with
      | None => false
      | Some objNew =>
          let oldAnno := go_lookup (GetAnnotations objOld) NodeDrainAnnotation in
          let newAnno := go_lookup (GetAnnotations objNew) NodeDrainAnnotation in
          match oldAnno, newAnno with
          | Some o, Some n => negb (bool_decide (o = n))
          | _, _ => false
          end
      end
  end.

(** The value of the request annotation as the filter reads it. *)
Definition request_of (n : Node) : option string :=
  go_lookup (GetAnnotations n) NodeDrainAnnotation.

End WithConsts.

(** A node that requests a drain and a node without the annotation. *)
Definition requesting_node : Node :=
  mk_node "node1" (Some {[ @NodeDrainAnnotation test_consts := @DrainRequired test_consts ]}).
Definition bare_node : Node := mk_node "node1" None.

End DrainAnnotationPredicate.

(** ** pkg/utils/cluster.go: annotating the node *)
Module Cluster.
Import K8s.

(** *** Strategic merge patches

    [strategicpatch.CreateTwoWayMergePatch] works on the JSON forms of
    the two objects.  A patch names, per field, the new value of a field
    that differs; for a map it names the keys to set ([Some v]) and the
    keys to delete ([None], JSON null).  Map fields are [omitempty]: the
    nil map and the empty map have the same JSON form. *)
Abbreviation mapPatch := (gmap string (option string)).

Record NodePatch := {
  pName : option string;
  pGeneration : option Z;
  pLabels : mapPatch;
  pAnnotations : mapPatch;
  pUnschedulable : option bool;
  pProviderID : option string;
  pTaints : option (list string);
  pPhase : option string;
  pConditions : option (list string);
}.

Definition json_map (m : gomap) : gmap string string := default ∅ m.

Definition of_json_map (m : gmap string string) : gomap :=
  if decide (m = ∅) then None else Some m.

Definition diff_entry (o n : option string) : option (option string) :=
  match o, n with
  | _, Some v => if decide (o = Some v) then None else Some (Some v)
  | Some _, None => Some None
  | None, None => None
  end.

Definition diff_map (old new : gomap) : mapPatch :=
  merge diff_entry (json_map old) (json_map new).

Definition diff_field {A} `{EqDecision A} (old new : A) : option A :=
  if decide (old = new) then None else Some new.

Definition CreateTwoWayMergePatch (old new : Node) : NodePatch :=
  {| pName := diff_field (Name (meta old)) (Name (meta new));
     pGeneration := diff_field (Generation (meta old)) (Generation (meta new));
     pLabels := diff_map (Labels (meta old)) (Labels (meta new));
     pAnnotations := diff_map (Annotations (meta old)) (Annotations (meta new));
     pUnschedulable := diff_field (Unschedulable (spec old)) (Unschedulable (spec new));
     pProviderID := diff_field (ProviderID (spec old)) (ProviderID (spec new));
     pTaints := diff_field (Taints (spec old)) (Taints (spec new));
     pPhase := diff_field (Phase (status old)) (Phase (status new));
     pConditions := diff_field (Conditions (status old)) (Conditions (status new)) |}.

Definition apply_entry (cur : option string) (p : option (option string)) : option string :=
  match p with
  | Some (Some v) => Some v
  | Some None => None
  | None => cur
  end.

Definition apply_map (cur : gomap) (p : mapPatch) : gomap :=
  of_json_map (merge apply_entry (json_map cur) p).

Definition apply_field {A} (cur : A) (p : option A) : A := default cur p.

(** What the API server stores after a strategic merge patch. *)
Definition applyPatch (p : NodePatch) (cur : Node) : Node :=
  {| meta := {| Name := apply_field (Name (meta cur)) (pName p);
                Generation := apply_field (Generation (meta cur)) (pGeneration p);
                Labels := apply_map (Labels (meta cur)) (pLabels p);
                Annotations := apply_map (Annotations (meta cur)) (pAnnotations p) |};
     spec := {| Unschedulable := apply_field (Unschedulable (spec cur)) (pUnschedulable p);
                ProviderID := apply_field (ProviderID (spec cur)) (pProviderID p);
                Taints := apply_field (Taints (spec cur)) (pTaints p) |};
     status := {| Phase := apply_field (Phase (status cur)) (pPhase p);
                  Conditions := apply_field (Conditions (status cur)) (pConditions p) |} |}.

(** *** The client

    [kubernetes.Interface] as an object store keyed by node name, with
    the log of the requests issued against it and the failures the API
    server has in store for the requests to come: a request that meets
    [Some err] fails with [err] and changes nothing. *)
Inductive ApiCall :=
| CallGet (name : string)
| CallPatch (name : string) (p : NodePatch).

Record KubeClient := {
  nodes : gmap string Node;
  calls : list ApiCall;
  faults : list (option goerror);
}.

Definition next_fault (kc : KubeClient) : option goerror :=
  match faults kc with
  | f :: _ => f
  | [] => None
  end.

(** The client after request [c], the store being [ns] then. *)
Definition served (c : ApiCall) (ns : gmap string Node) (kc : KubeClient) : KubeClient :=
  {| nodes := ns; calls := calls kc ++ [c]; faults := tail (faults kc) |}.

Definition Get (name : string) (kc : KubeClient) : (Node + goerror) * KubeClient :=
  let kc' := served (CallGet name) (nodes kc) kc in
  match next_fault kc with
  | Some err => (inr err, kc')
  | None =>
      match nodes kc !! name with
      | Some n => (inl n, kc')
      | None => (inr (ErrNotFound name), kc')
      end
  end.

Definition Patch (name : string) (p : NodePatch) (kc : KubeClient)
  : (Node + goerror) * KubeClient :=
  match next_fault kc with
  | Some err => (inr err, served (CallPatch name p) (nodes kc) kc)
  | None =>
      match nodes kc !! name with
      | Some cur =>
          let n' := applyPatch p cur in
          (inl n', served (CallPatch name p) (<[name := n']> (nodes kc)) kc)
      | None => (inr (ErrNotFound name), served (CallPatch name p) (nodes kc) kc)
      end
  end.

Definition set_annotations (n : Node) (a : gomap) : Node :=
  {| meta := {| Name := Name (meta n); Generation := Generation (meta n);
                Labels := Labels (meta n); Annotations := a |};
     spec := spec n; status := status n |}.

(** [m[k] = v] on a Go map that is known not to be nil. *)
Definition go_store (m : gomap) (k v : string) : gomap :=
  Some (<[k := v]> (json_map m)).

Definition NodeHasAnnotation (node : Node) (annoKey value : string) : bool :=
  match go_lookup (Annotations (meta node)) annoKey with
  | Some anno => bool_decide (anno = value)
  | None => false
  end.

Section WithConsts.
Context `{Consts}.

(** [json.Marshal] of a node and [CreateTwoWayMergePatch] of two
    marshalled nodes do not fail, so their error branches are left
    out. *)
Definition AnnotateNode (node value : string) (kubeClient : KubeClient)
  : option goerror * KubeClient :=
  match Get node kubeClient with
  | (inr err, kc) => (Some err, kc)
  | (inl oldNode, kc) =>
      let newNode := oldNode in
      let newNode :=
        match Annotations (meta newNode) with
        | None => set_annotations newNode (Some ∅)
        | Some _ => newNode
        end in
      if decide (go_index (Annotations (meta newNode)) NodeDrainAnnotation <> value)
      then
        let newNode :=
          set_annotations newNode
            (go_store (Annotations (meta newNode)) NodeDrainAnnotation value) in
        let patchBytes := CreateTwoWayMergePatch oldNode newNode in
        match Patch node patchBytes kc with
        | (inr err, kc') => (Some err, kc')
        | (inl _, kc') => (None, kc')
        end
      else (None, kc)
  end.

End WithConsts.

(** The patch that sets one annotation and mentions nothing else. *)
Definition annotation_patch (k v : string) : NodePatch :=
  {| pName := None; pGeneration := None; pLabels := ∅;
     pAnnotations := {[ k := Some v ]};
     pUnschedulable := None; pProviderID := None; pTaints := None;
     pPhase := None; pConditions := None |}.

(** A store that holds one node, which requests a drain. *)
Definition test_client : KubeClient :=
  {| nodes := {[ "node1" := DrainAnnotationPredicate.requesting_node ]}; calls := [];
     faults := [] |}.

(** [kc'] is [kc] after a read of [node] and nothing else. *)
Definition read_only (node : string) (kc kc' : KubeClient) : Prop :=
  nodes kc' = nodes kc /\ calls kc' = calls kc ++ [CallGet node].

(** Two nodes that agree on everything but, possibly, annotation [k]. *)
Definition same_but_annotation (k : string) (a b : Node) : Prop :=
  Name (meta a) = Name (meta b) /\
  Generation (meta a) = Generation (meta b) /\
  (forall i, go_lookup (Labels (meta a)) i = go_lookup (Labels (meta b)) i) /\
  (forall i, i <> k ->
     go_lookup (Annotations (meta a)) i = go_lookup (Annotations (meta b)) i) /\
  spec a = spec b /\
  status a = status b.

End Cluster.

(** ** api/v1: the node state resource, as far as the plugins read it *)
Module sriovnetworkv1.
Import K8s.

Record VfGroup := { DeviceType : string; VdpaType : string }.

Record Interface := {
  PciAddress : string;
  NumVfs : Z;
  ExternallyManaged : bool;
  VfGroups : list VfGroup;
}.

Record InterfaceExt := {
  ePciAddress : string;
  eNumVfs : Z;
  eName : string;
  eVendor : string;
  eDeviceID : string;
}.

Record SriovNetworkNodeState := {
  ObjectMeta : K8s.ObjectMeta;
  SpecInterfaces : list Interface;
  StatusInterfaces : list InterfaceExt;
  SyncStatus : string;
  LastSyncError : string;
}.

Definition emptyInterfaceExt : InterfaceExt :=
  {| ePciAddress := ""; eNumVfs := 0; eName := ""; eVendor := ""; eDeviceID := "" |}.

End sriovnetworkv1.

(** ** pkg/plugins/generic/generic_plugin.go *)
Module GenericPlugin.
Import sriovnetworkv1.

(** The two [needDriver] functions a [DriverState] can point to. *)
Inductive needDriver := CheckDeviceType | CheckVdpaType.

Record DriverState := {
  DriverName : string;
  dsDeviceType : string;
  dsVdpaType : string;
  NeedDriverFunc : needDriver;
  DriverLoaded : bool;
}.

(** driver ids *)
Definition Vfio : nat := 0.
Definition VirtioVdpa : nat := 1.
Definition VhostVdpa : nat := 2.

Record GenericPlugin := {
  DesireState : option SriovNetworkNodeState;
  DriverStateMap : gmap nat DriverState;
  DesiredKernelArgs : gmap string bool;
}.

(** What running the kernel-argument script gave: the command was not
    found, it failed otherwise, or it printed something, on which
    [strconv.Atoi] gives a number or an error. *)
Inductive CmdOutcome :=
| CmdNotFound
| CmdFailed (e : goerror)
| CmdPrinted (atoi : Z + goerror).

(** The helpers and constants the plugin uses that live outside its
    file: [utils.NeedUpdate], the store manager, the kernel command
    line, the switchdev configuration file, the kernel-argument
    script. *)
Record Host := {
  NeedUpdate : Interface -> InterfaceExt -> bool;
  LoadPfsStatus : string -> (bool (* ExternallyManaged *) * bool (* exist *) * option goerror);
  GetCurrentKernelArgs : string + goerror;
  IsKernelArgsSet : string -> string -> bool;
  WriteSwitchdevConfFile : SriovNetworkNodeState -> bool * option goerror;
  runKargScript : string -> CmdOutcome;
  KernelArgIntelIommu : string;
  KernelArgIommuPt : string;
}.

Definition needDriverCheckDeviceType (state : SriovNetworkNodeState) (driverState : DriverState)
  : bool :=
  existsb (fun iface =>
    existsb (fun g => bool_decide (DeviceType g = dsDeviceType driverState)) (VfGroups iface))
    (SpecInterfaces state).

Definition needDriverCheckVdpaType (state : SriovNetworkNodeState) (driverState : DriverState)
  : bool :=
  existsb (fun iface =>
    existsb (fun g => bool_decide (VdpaType g = dsVdpaType driverState)) (VfGroups iface))
    (SpecInterfaces state).

Definition callNeedDriver (f : needDriver) :=
  match f with
  | CheckDeviceType => needDriverCheckDeviceType
  | CheckVdpaType => needDriverCheckVdpaType
  end.

Section WithHost.
Variable h : Host.

Definition setKernelArg (karg : string) : bool * option goerror :=
  match runKargScript h karg with
  | CmdNotFound => (false, None)
  | CmdFailed e => (false, Some e)
  | CmdPrinted (inl i) => if (0 <? i)%Z then (true, None) else (false, None)
  | CmdPrinted (inr err) => (false, Some err)
  end.

Definition addToDesiredKernelArgs (p : GenericPlugin) (karg : string) : GenericPlugin :=
  match DesiredKernelArgs p !! karg with
  | Some _ => p
  | None =>
      {| DesireState := DesireState p; DriverStateMap := DriverStateMap p;
         DesiredKernelArgs := <[karg := false]> (DesiredKernelArgs p) |}
  end.

(** The loop of [syncDesiredKernelArgs] over the entries of the map in
    the order [todo]; [args] is the map being updated. *)
Fixpoint syncDesiredKernelArgs_loop (kargs : string) (todo : list (string * bool))
    (needReboot : bool) (args : gmap string bool)
  : bool * option goerror * gmap string bool :=
  match todo with
  | [] => (needReboot, None, args)
  | (desiredKarg, attempted) :: rest =>
      if IsKernelArgsSet h kargs desiredKarg
      then syncDesiredKernelArgs_loop kargs rest needReboot args
      else
        match setKernelArg desiredKarg with
        | (_, Some err) => (false, Some err, args)
        | (update, None) =>
            syncDesiredKernelArgs_loop kargs rest
              (if update then true else needReboot)
              (<[desiredKarg := true]> args)
        end
  end.

Definition syncDesiredKernelArgs (p : GenericPlugin) : bool * option goerror * GenericPlugin :=
  if decide (size (DesiredKernelArgs p) = 0) then (false, None, p)
  else
    match GetCurrentKernelArgs h with
    | inr err => (false, Some err, p)
    | inl kargs =>
        let '(needReboot, err, args) :=
          syncDesiredKernelArgs_loop kargs (map_to_list (DesiredKernelArgs p))
            false (DesiredKernelArgs p) in
        (needReboot, err,
         {| DesireState := DesireState p; DriverStateMap := DriverStateMap p;
            DesiredKernelArgs := args |})
    end.

(** The inner loop of [needDrainNode] over the desired interfaces, for
    one interface of the status.  [Some b] is [return] with
    [needDrain = b]; [None] is falling out of the loop (or [break]),
    with [configured] alongside. *)
Fixpoint needDrainNode_inner (ifaceStatus : InterfaceExt) (desired : list Interface)
    (configured : bool) : option bool * bool :=
  match desired with
  | [] => (None, configured)
  | iface :: rest =>
      if bool_decide (PciAddress iface = ePciAddress ifaceStatus) then
        if bool_decide (eNumVfs ifaceStatus = 0%Z) then (None, true)
        else if NeedUpdate h iface ifaceStatus then (Some true, true)
        else needDrainNode_inner ifaceStatus rest true
      else needDrainNode_inner ifaceStatus rest configured
  end.

Fixpoint needDrainNode (desired : list Interface) (current : list InterfaceExt) : bool :=
  match current with
  | [] => false
  | ifaceStatus :: rest =>
      match needDrainNode_inner ifaceStatus desired false with
      | (Some needDrain, _) => needDrain
      | (None, configured) =>
          if negb configured && (0 <? eNumVfs ifaceStatus)%Z then
            match LoadPfsStatus h (ePciAddress ifaceStatus) with
            | (_, _, Some _) => needDrainNode desired rest
            | (_, false, None) => needDrainNode desired rest
            | (true, true, None) => needDrainNode desired rest
            | (false, true, None) => true
            end
          else needDrainNode desired rest
      end
  end.

Definition addVfioDesiredKernelArg (p : GenericPlugin) (state : SriovNetworkNodeState)
  : GenericPlugin :=
  match DriverStateMap p !! Vfio with
  | Some driverState =>
      if negb (DriverLoaded driverState)
         && callNeedDriver (NeedDriverFunc driverState) state driverState
      then addToDesiredKernelArgs
             (addToDesiredKernelArgs p (KernelArgIntelIommu h)) (KernelArgIommuPt h)
      else p
  | None => p
  end.

Definition needRebootNode (p : GenericPlugin) (state : SriovNetworkNodeState)
  : bool * option goerror * GenericPlugin :=
  let needReboot := false in
  let p := addVfioDesiredKernelArg p state in
  match syncDesiredKernelArgs p with
  | (_, Some err, p) => (false, Some err, p)
  | (updateNode, None, p) =>
      let needReboot := if updateNode then true else needReboot in
      match WriteSwitchdevConfFile h state with
      | (_, Some err) => (false, Some err, p)
      | (updateNode, None) =>
          let needReboot := if updateNode then true else needReboot in
          (needReboot, None, p)
      end
  end.

(** Returns [(needDrain, needReboot, err)] as the Go function does, and
    the plugin as the call leaves it. *)
Definition OnNodeStateChange (p : GenericPlugin) (new : SriovNetworkNodeState)
  : bool * bool * option goerror * GenericPlugin :=
  let p := {| DesireState := Some new; DriverStateMap := DriverStateMap p;
              DesiredKernelArgs := DesiredKernelArgs p |} in
  let needDrain := needDrainNode (SpecInterfaces new) (StatusInterfaces new) in
  match needRebootNode p new with
  | (needReboot, Some err, p) => (needDrain, needReboot, Some err, p)
  | (needReboot, None, p) =>
      let needDrain := if needReboot then true else needDrain in
      (needDrain, needReboot, None, p)
  end.

End WithHost.

(** A host where the kernel arguments wanted are not set and the script
    that sets them reports a change; a plugin that wants one kernel
    argument; a node state without interfaces. *)
Definition test_host : Host :=
  {| NeedUpdate := fun _ _ => false;
     LoadPfsStatus := fun _ => (false, false, None);
     GetCurrentKernelArgs := inl "";
     IsKernelArgsSet := fun _ _ => false;
     WriteSwitchdevConfFile := fun _ => (false, None);
     runKargScript := fun _ => CmdPrinted (inl 1%Z);
     KernelArgIntelIommu := "intel_iommu=on";
     KernelArgIommuPt := "iommu=pt" |}.

Definition test_plugin : GenericPlugin :=
  {| DesireState := None; DriverStateMap := ∅;
     DesiredKernelArgs := {[ "intel_iommu=on" := false ]} |}.

Definition test_state : SriovNetworkNodeState :=
  {| ObjectMeta := {| K8s.Name := "node1"; K8s.Generation := 2; K8s.Labels := None;
                      K8s.Annotations := None |};
     SpecInterfaces := []; StatusInterfaces := [];
     SyncStatus := "Succeeded"; LastSyncError := "" |}.

End GenericPlugin.

(** ** pkg/plugins/mellanox/mellanox_plugin.go *)
Module MellanoxPlugin.
Import sriovnetworkv1.

(** [mlx.MlxNic] *)
Record MlxNic := {
  EnableSriov : bool;
  TotalVfs : Z;
  LinkTypeP1 : string;
  LinkTypeP2 : string;
}.

Abbreviation nicsStatus := (gmap string (gmap string InterfaceExt)).
Abbreviation nicsSpec := (gmap string Interface).

(** The package-level variables of the plugin. *)
Record Globals := {
  attributesToChange : gmap string MlxNic;
  mellanoxNicsStatus : nicsStatus;
  mellanoxNicsSpec : nicsSpec;
}.

(** The helpers of package [mlx] and of the host that the plugin calls.
    Those that receive the [attrs] pointer return the attributes as they
    leave them. *)
Record Helpers := {
  MellanoxVendorID : string;
  GetPciAddressPrefix : string -> string;
  IsKernelLockdownMode : bool;
  GetMlxNicFwData : string -> (MlxNic * MlxNic) + goerror;
  IsDualPort : string -> nicsStatus -> bool;
  HandleTotalVfs : MlxNic -> MlxNic -> MlxNic -> Interface -> bool -> nicsSpec ->
                   Z * bool * bool * MlxNic;
  HandleEnableSriov : Z -> MlxNic -> MlxNic -> MlxNic -> bool * bool * MlxNic;
  HandleLinkType : string -> MlxNic -> MlxNic -> nicsSpec -> nicsStatus ->
                   bool * option goerror * MlxNic;
  GetVfDeviceID : string -> string;
}.

Section WithHelpers.
Variable helpers : Helpers.

(** "Read mellanox NIC status once" *)
Definition readStatus (st : nicsStatus) (iface : InterfaceExt) : nicsStatus :=
  if bool_decide (eVendor iface <> MellanoxVendorID helpers) then st
  else
    let pciPrefix := GetPciAddressPrefix helpers (ePciAddress iface) in
    match st !! pciPrefix with
    | Some ifaces => <[pciPrefix := <[ePciAddress iface := iface]> ifaces]> st
    | None => <[pciPrefix := {[ ePciAddress iface := iface ]}]> st
    end.

Definition collectSpec (st : nicsStatus) (sp : nicsSpec) (iface : Interface) : nicsSpec :=
  let pciPrefix := GetPciAddressPrefix helpers (PciAddress iface) in
  match st !! pciPrefix with
  | None => sp
  | Some _ => <[PciAddress iface := iface]> sp
  end.

(** The state the two loops over the NICs carry along. *)
Record LoopState := {
  processedNics : gmap string bool;
  needReboot : bool;
  toChange : gmap string MlxNic;
}.

(** The loop over [mellanoxNicsSpec], in the order [todo]: [inl] is a
    [return] from inside the loop with the values returned. *)
Fixpoint specLoop (st : nicsStatus) (sp : nicsSpec) (todo : list (string * Interface))
    (ls : LoopState) : (bool * bool * option goerror * LoopState) + LoopState :=
  match todo with
  | [] => inr ls
  | (_, ifaceSpec) :: rest =>
      let pciPrefix := GetPciAddressPrefix helpers (PciAddress ifaceSpec) in
      match processedNics ls !! pciPrefix with
      | Some _ => specLoop st sp rest ls
      | None =>
          let processed := <[pciPrefix := true]> (processedNics ls) in
          match GetMlxNicFwData helpers (PciAddress ifaceSpec) with
          | inr err =>
              inl (false, false, Some err,
                   {| processedNics := processed; needReboot := needReboot ls;
                      toChange := toChange ls |})
          | inl (fwCurrent, fwNext) =>
              let isDualPort := IsDualPort helpers (PciAddress ifaceSpec) st in
              let attrs := {| EnableSriov := false; TotalVfs := -1;
                              LinkTypeP1 := ""; LinkTypeP2 := "" |} in
              let '(totalVfs, needReboot, changeWithoutReboot, attrs) :=
                HandleTotalVfs helpers fwCurrent fwNext attrs ifaceSpec isDualPort sp in
              let '(sriovEnNeedReboot, sriovEnChangeWithoutReboot, attrs) :=
                HandleEnableSriov helpers totalVfs fwCurrent fwNext attrs in
              let needReboot := needReboot || sriovEnNeedReboot in
              let changeWithoutReboot := changeWithoutReboot || sriovEnChangeWithoutReboot in
              if ExternallyManaged ifaceSpec && needReboot then
                inl (true, true, Some (ErrOther "interface required a change in the TotalVfs but the policy is externally managed"),
                     {| processedNics := processed; needReboot := needReboot;
                        toChange := toChange ls |})
              else
                match HandleLinkType helpers pciPrefix fwCurrent attrs sp st with
                | (_, Some err, _) =>
                    inl (false, false, Some err,
                         {| processedNics := processed; needReboot := needReboot;
                            toChange := toChange ls |})
                | (needLinkChange, None, attrs) =>
                    let needReboot := needReboot || needLinkChange in
                    specLoop st sp rest
                      {| processedNics := processed; needReboot := needReboot;
                         toChange :=
                           if needReboot || changeWithoutReboot
                           then <[PciAddress ifaceSpec := attrs]> (toChange ls)
                           else toChange ls |}
                end
          end
      end
  end.

(** "Set total VFs to 0 for mellanox interfaces with no spec": the loop
    over [mellanoxNicsStatus]. *)
Fixpoint statusLoop (todo : list (string * gmap string InterfaceExt)) (ls : LoopState)
  : (bool * bool * option goerror * LoopState) + LoopState :=
  match todo with
  | [] => inr ls
  | (pciPrefix, portsMap) :: rest =>
      match processedNics ls !! pciPrefix with
      | Some _ => statusLoop rest ls
      | None =>
          let ls := {| processedNics := <[pciPrefix := true]> (processedNics ls);
                       needReboot := needReboot ls; toChange := toChange ls |} in
          let pciAddress := pciPrefix +:+ "0" in
          if bool_decide
               (GetVfDeviceID helpers
                  (eDeviceID (default emptyInterfaceExt (portsMap !! pciAddress))) = "")
          then statusLoop rest ls
          else
            match GetMlxNicFwData helpers pciAddress with
            | inr err => inl (false, false, Some err, ls)
            | inl (_, fwNext) =>
                if (0 <? TotalVfs fwNext)%Z || EnableSriov fwNext then
                  statusLoop rest
                    {| processedNics := processedNics ls; needReboot := needReboot ls;
                       toChange :=
                         <[pciAddress := {| EnableSriov := false; TotalVfs := 0;
                                            LinkTypeP1 := ""; LinkTypeP2 := "" |}]>
                           (toChange ls) |}
                else statusLoop rest ls
            end
      end
  end.

(** Returns [(needDrain, needReboot, err)] as the Go function does, and
    the package-level variables as the call leaves them. *)
Definition OnNodeStateChange (g : Globals) (new : SriovNetworkNodeState)
  : bool * bool * option goerror * Globals :=
  let needDrain := false in
  let needReboot0 := false in
  let st :=
    if decide (size (mellanoxNicsStatus g) = 0)
    then fold_left readStatus (StatusInterfaces new) (mellanoxNicsStatus g)
    else mellanoxNicsStatus g in
  let sp := fold_left (collectSpec st) (SpecInterfaces new) ∅ in
  let out ls := {| attributesToChange := toChange ls; mellanoxNicsStatus := st;
                   mellanoxNicsSpec := sp |} in
  let ls0 := {| processedNics := ∅; needReboot := needReboot0; toChange := ∅ |} in
  if IsKernelLockdownMode helpers then
    if decide (0 < size sp)
    then (false, false, Some (ErrOther "mellanox device detected when in lockdown mode"), out ls0)
    else (needDrain, needReboot0, None, out ls0)
  else
    match specLoop st sp (map_to_list sp) ls0 with
    | inl (d, r, err, ls) => (d, r, err, out ls)
    | inr ls =>
        match statusLoop (map_to_list st) ls with
        | inl (d, r, err, ls) => (d, r, err, out ls)
        | inr ls =>
            let needDrain := if needReboot ls then true else needDrain in
            (needDrain, needReboot ls, None, out ls)
        end
    end.

End WithHelpers.
End MellanoxPlugin.

(** ** pkg/daemon/daemon.go: the config daemon *)
Module Daemon.
Import K8s sriovnetworkv1.

Definition syncStatusSucceeded := "Succeeded".
Definition syncStatusFailed := "Failed".
Definition syncStatusInProgress := "InProgress".

(** [generic.PluginName] *)
Definition GenericPluginName := "generic_plugin".

Record Message := { syncStatus : string; lastSyncError : string }.

(** [systemd.SriovResult] *)
Record SriovResult := { rSyncStatus : string; rLastSyncError : string }.

(** A [plugin.VendorPlugin], by what its methods answer. *)
Record VendorPlugin := {
  OnNodeStateChange : SriovNetworkNodeState -> bool * bool * option goerror;
  Apply : option goerror;
}.

Record Daemon := {
  name : string;
  useSystemdService : bool;
  devMode : bool;
  disableDrain : bool;
  desiredNodeState : SriovNetworkNodeState;
  currentNodeState : SriovNetworkNodeState;
  enabledPlugins : gmap string VendorPlugin;
}.

(** *** What the handler does to the outside

    The requests the daemon issues through its two clients, the calls of
    [utils.AnnotateNode], the messages to the status writer, the calls of
    the plugins and of the host, in the order they happen. *)
Inductive Resource := RNode | RPod | RSriovNetworkNodeState.
Inductive Verb := VGet | VList | VCreate | VUpdate | VUpdateStatus | VPatch | VDelete.

Inductive Event :=
| ApiCall (r : Resource) (v : Verb) (name : string)
| AnnotateNodeCall (node key value : string)
| Refresh (m : Message)
| PluginOnNodeStateChange (k : string)
| PluginApply (k : string)
| HostCall (what : string)
| SendEvent (reason msg : string)
| RebootNode.

(** What the outside answers. *)
Record Env := {
  (** the answers to the first (0) and the second (1) read of the node state *)
  getNodeState : nat -> SriovNetworkNodeState * option goerror;
  IsServiceEnabled : bool + goerror;
  ReadSriovResult : SriovResult + goerror;
  ClearPCIAddressFolder : option goerror;
  enablePlugins : SriovNetworkNodeState -> gmap string VendorPlugin * option goerror;
  WriteConfFile : SriovNetworkNodeState -> bool + goerror;
  RemoveSriovResult : option goerror;
  WriteSriovSupportedNics : option goerror;
  listPods : list string + goerror;
  deletePod : string -> option goerror;
  (** the polls of the deleted pod that still find it, and whether the
      polling then ends with the pod gone or with the stop channel *)
  pollsFindingPod : nat;
  podGone : bool;
  AnnotateNode : string -> string -> string -> option goerror;
  VirtualPluginName : string;
}.

(** Modelled from the spec: [utils.ObjectHasAnnotationKey] and
    [utils.ObjectHasAnnotation] are not among the sources.  The
    specification speaks of the value of the grant annotation on the node
    state; the two helpers are taken to test that an annotation is
    present, and that it is present with the value given, the way
    [NodeHasAnnotation] of pkg/utils/cluster.go does for a node. *)
Definition ObjectHasAnnotationKey (obj : SriovNetworkNodeState) (annoKey : string) : bool :=
  match go_lookup (Annotations (ObjectMeta obj)) annoKey with
  | Some _ => true
  | None => false
  end.

Definition ObjectHasAnnotation (obj : SriovNetworkNodeState) (annoKey value : string) : bool :=
  match go_lookup (Annotations (ObjectMeta obj)) annoKey with
  | Some anno => bool_decide (anno = value)
  | None => false
  end.

(** *** A monad for the handler: the daemon, the events so far, and
    [return] from the middle of the function *)
Record St := { dn : Daemon; trace : list Event }.

Definition M (A : Type) : Type := St -> (A + option goerror) * St.

Definition ret {A} (a : A) : M A := fun s => (inl a, s).

Definition bind {A B} (m : M A) (k : A -> M B) : M B :=
  fun s =>
    match m s with
    | (inl a, s') => k a s'
    | (inr r, s') => (inr r, s')
    end.

(** [return err] *)
Definition Return {A} (err : option goerror) : M A := fun s => (inr err, s).

Definition emit (e : Event) : M unit :=
  fun s => (inl tt, {| dn := dn s; trace := trace s ++ [e] |}).

Definition getDn : M Daemon := fun s => (inl (dn s), s).

Definition setDn (d : Daemon) : M unit :=
  fun s => (inl tt, {| dn := d; trace := trace s |}).

(** [x, err := f(); if err != nil { return err }] *)
Definition try {A} (r : A + goerror) : M A :=
  match r with
  | inl a => ret a
  | inr err => Return (Some err)
  end.

(** [if err := f(); err != nil { return err }] *)
Definition check (r : option goerror) : M unit :=
  match r with
  | None => ret tt
  | Some err => Return (Some err)
  end.

Definition when (b : bool) (m : M unit) : M unit := if b then m else ret tt.

(** [dn.refreshCh <- m; <-dn.syncCh] *)
Definition refresh (st err : string) : M unit :=
  emit (Refresh {| syncStatus := st; lastSyncError := err |}).

Definition set_desiredNodeState (d : Daemon) (ns : SriovNetworkNodeState) : Daemon :=
  {| name := name d; useSystemdService := useSystemdService d; devMode := devMode d;
     disableDrain := disableDrain d; desiredNodeState := ns;
     currentNodeState := currentNodeState d; enabledPlugins := enabledPlugins d |}.

Definition set_currentNodeState (d : Daemon) (ns : SriovNetworkNodeState) : Daemon :=
  {| name := name d; useSystemdService := useSystemdService d; devMode := devMode d;
     disableDrain := disableDrain d; desiredNodeState := desiredNodeState d;
     currentNodeState := ns; enabledPlugins := enabledPlugins d |}.

Definition set_enabledPlugins (d : Daemon) (ps : gmap string VendorPlugin) : Daemon :=
  {| name := name d; useSystemdService := useSystemdService d; devMode := devMode d;
     disableDrain := disableDrain d; desiredNodeState := desiredNodeState d;
     currentNodeState := currentNodeState d; enabledPlugins := ps |}.

(** [dn.desiredNodeState.Status = updatedState.Status] *)
Definition set_Status (ns updated : SriovNetworkNodeState) : SriovNetworkNodeState :=
  {| ObjectMeta := ObjectMeta ns; SpecInterfaces := SpecInterfaces ns;
     StatusInterfaces := StatusInterfaces updated;
     SyncStatus := SyncStatus updated; LastSyncError := LastSyncError updated |}.

Notation "'do' x <- c ; k" := (bind c (fun x => k))
  (at level 10, x name, c at level 100, k at level 200).
Notation "'do' ' p <- c ; k" := (bind c (fun x => match x with p => k end))
  (at level 10, p pattern, c at level 100, k at level 200).
Notation "c >> k" := (bind c (fun _ => k))
  (at level 100, k at level 200, right associativity).

Section WithEnv.
Context `{Consts}.
Variable env : Env.

(** The polls of [wait.PollImmediateUntil] that still find the pod. *)
Fixpoint pollPod (podToDelete : string) (n : nat) : M unit :=
  match n with
  | O => ret tt
  | S n' => emit (ApiCall RPod VGet podToDelete) >> pollPod podToDelete n'
  end.

Definition restartDevicePluginPod : M (option goerror) :=
  emit (ApiCall RPod VList "") >>
  match listPods env with
  | inr err => if IsNotFound err then ret None else ret (Some err)
  | inl [] => ret None
  | inl (podToDelete :: _) =>
      emit (ApiCall RPod VDelete podToDelete) >>
      match deletePod env podToDelete with
      | Some err => if IsNotFound err then ret None else ret (Some err)
      | None =>
          pollPod podToDelete (pollsFindingPod env) >>
          if podGone env
          then emit (ApiCall RPod VGet podToDelete) >> ret None
          else ret (Some (ErrOther "timed out waiting for the condition"))
      end
  end.

Definition isNodeDraining (d : Daemon) : bool :=
  match go_lookup (Annotations (ObjectMeta (desiredNodeState d)))
                  NodeStateDrainAnnotationCurrent with
  | None => false
  | Some anno => bool_decide (anno = Draining) || bool_decide (anno = DrainMcpPaused)
  end.

Definition applyDrainRequired : M (option goerror) :=
  do d <- getDn;
  emit (AnnotateNodeCall (name d) NodeDrainAnnotation DrainRequired) >>
  ret (AnnotateNode env (name d) NodeDrainAnnotation DrainRequired).

(** The branch taken when the generation has not changed (lines
    347-390). *)
Definition generationUnchanged : M unit :=
  do d <- getDn;
  (if useSystemdService d then
     emit (HostCall "IsServiceEnabled") >>
     do serviceEnabled <- try (IsServiceEnabled env);
     do sriovResult <-
       (if negb serviceEnabled
        then ret {| rSyncStatus := syncStatusFailed;
                    rLastSyncError :=
                      "sriov-config systemd service is not available on node" |}
        else emit (HostCall "ReadSriovResult") >> try (ReadSriovResult env));
     if negb (bool_decide (rLastSyncError sriovResult = ""))
        || bool_decide (rSyncStatus sriovResult = syncStatusFailed)
     then refresh syncStatusFailed (rLastSyncError sriovResult) >> Return None
     else ret tt
   else ret tt) >>
  when (negb (bool_decide (LastSyncError (desiredNodeState d) = ""))
        || negb (bool_decide (SyncStatus (desiredNodeState d) = syncStatusSucceeded)))
       (refresh syncStatusSucceeded "") >>
  Return None.

(** "check if any of the plugins required to drain or reboot the node" *)
Fixpoint onNodeStateChangeLoop (ps : list (string * VendorPlugin))
    (desired : SriovNetworkNodeState) (reqDrain reqReboot : bool) : M (bool * bool) :=
  match ps with
  | [] => ret (reqDrain, reqReboot)
  | (k, p) :: rest =>
      emit (PluginOnNodeStateChange k) >>
      let '(d, r, err) := OnNodeStateChange p desired in
      check err >>
      onNodeStateChangeLoop rest desired (reqDrain || d) (reqReboot || r)
  end.

(** "Skip both the general and virtual plugin apply them last" *)
Fixpoint applyVendorLoop (ps : list (string * VendorPlugin)) : M unit :=
  match ps with
  | [] => ret tt
  | (k, p) :: rest =>
      if bool_decide (k <> GenericPluginName) && bool_decide (k <> VirtualPluginName env)
      then emit (PluginApply k) >> check (Apply p) >> applyVendorLoop rest
      else applyVendorLoop rest
  end.

(** Lines 334-502: everything up to the drain gate.  Gives
    [(reqDrain, reqReboot)] when the function gets that far. *)
Definition beforeGate : M (bool * bool) :=
  do d <- getDn;
  emit (ApiCall RSriovNetworkNodeState VGet (name d)) >>
  let '(desired, err) := getNodeState env 0 in
  setDn (set_desiredNodeState d desired) >>
  check err >>
  let latest := Generation (ObjectMeta desired) in
  if bool_decide (Generation (ObjectMeta (currentNodeState d)) = latest)
     && negb (ObjectHasAnnotation desired NodeStateDrainAnnotationCurrent DrainComplete)
  then generationUnchanged >> Return None
  else if bool_decide (Generation (ObjectMeta desired) = 1%Z)
          && bool_decide (length (SpecInterfaces desired) = 0)
  then
    emit (HostCall "ClearPCIAddressFolder") >>
    check (ClearPCIAddressFolder env) >>
    when (negb (bool_decide (SyncStatus desired = "Succeeded")))
         (refresh "Succeeded" "") >>
    Return None
  else
    refresh syncStatusInProgress "" >>
    emit (ApiCall RSriovNetworkNodeState VGet (name d)) >>
    do updatedState <- try (match getNodeState env 1 with
                            | (u, None) => inl u
                            | (_, Some err) => inr err
                            end);
    let desired := set_Status desired updatedState in
    do d <- getDn;
    setDn (set_desiredNodeState d desired) >>
    (if decide (size (enabledPlugins d) = 0) then
       emit (HostCall "enablePlugins") >>
       let '(ps, err) := enablePlugins env desired in
       do d <- getDn;
       setDn (set_enabledPlugins d ps) >>
       check err
     else ret tt) >>
    do d <- getDn;
    do '(reqDrain, reqReboot) <-
      onNodeStateChangeLoop (map_to_list (enabledPlugins d)) desired false false;
    do '(reqDrain, reqReboot) <-
      (if useSystemdService d then
         emit (HostCall "WriteConfFile") >>
         do systemdConfModified <- try (WriteConfFile env desired);
         when systemdConfModified
           (emit (HostCall "RemoveSriovResult") >> check (RemoveSriovResult env)) >>
         emit (HostCall "WriteSriovSupportedNics") >>
         check (WriteSriovSupportedNics env) >>
         ret (reqDrain || systemdConfModified, reqReboot || systemdConfModified)
       else ret (reqDrain, reqReboot));
    applyVendorLoop (map_to_list (enabledPlugins d)) >>
    ret (reqDrain, reqReboot).

(** Lines 504-521: the drain gate.  Falling through ([ret tt]) is
    going on to apply the configuration. *)
Definition drainGate (reqDrain : bool) : M unit :=
  do d <- getDn;
  if reqDrain
     || (ObjectHasAnnotationKey (desiredNodeState d) NodeStateDrainAnnotationCurrent
         && negb (ObjectHasAnnotation (desiredNodeState d)
                    NodeStateDrainAnnotationCurrent DrainIdle))
  then
    if ObjectHasAnnotation (desiredNodeState d) NodeStateDrainAnnotationCurrent DrainComplete
    then ret tt
    else if negb (isNodeDraining d) then
      if negb (disableDrain d) then
        do err <- applyDrainRequired;
        Return err
      else ret tt
    else Return None
  else ret tt.

Definition applyIfEnabled (k : string) : M unit :=
  do d <- getDn;
  match enabledPlugins d !! k with
  | Some selectedPlugin => emit (PluginApply k) >> check (Apply selectedPlugin)
  | None => ret tt
  end.

(** Lines 523-581: what follows the drain gate. *)
Definition afterGate (sriovResult : SriovResult) (reqReboot : bool) : M unit :=
  do d <- getDn;
  when (negb reqReboot && negb (useSystemdService d))
    (applyIfEnabled GenericPluginName >> applyIfEnabled (VirtualPluginName env)) >>
  if reqReboot then
    emit (SendEvent "RebootNode" "Reboot node has been initiated") >>
    emit RebootNode >>
    Return None
  else
    do err <- restartDevicePluginPod;
    check err >>
    emit (AnnotateNodeCall (name d) NodeDrainAnnotation DrainIdle) >>
    check (AnnotateNode env (name d) NodeDrainAnnotation DrainIdle) >>
    do d <- getDn;
    setDn (set_currentNodeState d (desiredNodeState d)) >>
    (if useSystemdService d
     then refresh (rSyncStatus sriovResult) (rLastSyncError sriovResult)
     else refresh syncStatusSucceeded "") >>
    Return None.

Definition nodeStateSyncHandler : M unit :=
  let sriovResult := {| rSyncStatus := syncStatusSucceeded; rLastSyncError := "" |} in
  do '(reqDrain, reqReboot) <- beforeGate;
  drainGate reqDrain >>
  afterGate sriovResult reqReboot.

(** The grant annotation as the daemon sees it on its node state. *)
Definition grant (d : Daemon) : option string :=
  go_lookup (Annotations (ObjectMeta (desiredNodeState d)))
            NodeStateDrainAnnotationCurrent.

(** Running the handler in a daemon, from an empty record of events:
    the error returned, the daemon and the events. *)
Definition run (d : Daemon) : option goerror * St :=
  match nodeStateSyncHandler {| dn := d; trace := [] |} with
  | (inr err, s) => (err, s)
  | (inl _, s) => (None, s)
  end.

(** What the agent may do to the cluster: read its node state, deal
    with pods, and have [utils.AnnotateNode] set the request annotation
    of its own node to [DrainRequired] or [DrainIdle].  Every other
    request on a node state (a write of any kind) and every direct
    request on a node is ruled out. *)
Definition agent_event_ok (nodeName : string) (e : Event) : Prop :=
  match e with
  | ApiCall RSriovNetworkNodeState v _ => v = VGet
  | ApiCall RNode _ _ => False
  | ApiCall RPod _ _ => True
  | AnnotateNodeCall node key value =>
      node = nodeName /\ key = NodeDrainAnnotation /\
      (value = DrainRequired \/ value = DrainIdle)
  | _ => True
  end.

End WithEnv.

(** [emits nm P m]: run in a daemon named [nm] after events that all
    satisfy [P], [m] keeps the name and adds only events that satisfy
    [P]. *)
Definition emits (nm : string) (P : Event -> Prop) {A} (m : M A) : Prop :=
  forall s r s', m s = (r, s') ->
    name (dn s) = nm -> Forall P (trace s) ->
    name (dn s') = nm /\ Forall P (trace s').

(** Going on past a step of the handler, as opposed to returning. *)
Definition proceeds {A} (x : (A + option goerror) * St) : Prop :=
  exists a, x.1 = inl a.

(** *** A daemon and an outside world to run the handler in *)
Definition drainingPlugin : VendorPlugin :=
  {| OnNodeStateChange := fun _ => (true, false, None); Apply := None |}.

Definition test_nodeState (gen : Z) (annos : gomap) : SriovNetworkNodeState :=
  {| ObjectMeta := {| Name := "node1"; Generation := gen; Labels := None;
                      Annotations := annos |};
     SpecInterfaces :=
       [ {| PciAddress := "0000:ca:00.0"; NumVfs := 4; ExternallyManaged := false;
            VfGroups := [] |} ];
     StatusInterfaces := []; SyncStatus := "Succeeded"; LastSyncError := "" |}.

Definition test_env (ns : SriovNetworkNodeState) : Env :=
  {| getNodeState := fun _ => (ns, None);
     IsServiceEnabled := inl true;
     ReadSriovResult := inl {| rSyncStatus := "Succeeded"; rLastSyncError := "" |};
     ClearPCIAddressFolder := None;
     enablePlugins := fun _ => ({[ GenericPluginName := drainingPlugin ]}, None);
     WriteConfFile := fun _ => inl false;
     RemoveSriovResult := None;
     WriteSriovSupportedNics := None;
     listPods := inl [];
     deletePod := fun _ => None;
     pollsFindingPod := 0;
     podGone := true;
     AnnotateNode := fun _ _ _ => None;
     VirtualPluginName := "virtual_plugin" |}.

(** A node state of generation 2 whose grant annotation is [g]. *)
Definition granted (g : string) : SriovNetworkNodeState :=
  test_nodeState 2 (Some {[ @NodeStateDrainAnnotationCurrent test_consts := g ]}).

Definition vendorPlugin : VendorPlugin :=
  {| OnNodeStateChange := fun _ => (true, true, None); Apply := None |}.

(** The outside of [test_env] with a vendor plugin enabled next to the
    generic one. *)
Definition with_vendor (e : Env) : Env :=
  {| getNodeState := getNodeState e; IsServiceEnabled := IsServiceEnabled e;
     ReadSriovResult := ReadSriovResult e; ClearPCIAddressFolder := ClearPCIAddressFolder e;
     enablePlugins := fun _ =>
       ({[ GenericPluginName := drainingPlugin; "mellanox_plugin" := vendorPlugin ]}, None);
     WriteConfFile := WriteConfFile e; RemoveSriovResult := RemoveSriovResult e;
     WriteSriovSupportedNics := WriteSriovSupportedNics e; listPods := listPods e;
     deletePod := deletePod e; pollsFindingPod := pollsFindingPod e; podGone := podGone e;
     AnnotateNode := AnnotateNode e; VirtualPluginName := VirtualPluginName e |}.

Definition env_draining : Env := test_env (granted (@Draining test_consts)).
Definition env_idle : Env := test_env (granted (@DrainIdle test_consts)).

Definition test_daemon (noDrain : bool) : Daemon :=
  {| name := "node1"; useSystemdService := false; devMode := false;
     disableDrain := noDrain;
     desiredNodeState := test_nodeState 0 None;
     currentNodeState := test_nodeState 0 None;
     enabledPlugins := ∅ |}.

(** The daemon with draining enabled and with draining disabled, before
    any event, and where [beforeGate] leaves them. *)
Definition start (noDrain : bool) : St := {| dn := test_daemon noDrain; trace := [] |}.

Definition at_gate_draining : St := (@beforeGate test_consts env_draining (start false)).2.
Definition at_gate_disabled : St := (@beforeGate test_consts env_idle (start true)).2.

End Daemon.

(** ** The drain coordinator

    The reconciler of the drain controller is not among the sources (its
    tests are); this module follows the specification, sections 3, 4.1,
    4.3 and 4.4. *)
Module Coordinator.

(** Modelled from the spec: the values of the grant annotation
    ([drain-state-current] on the node state), section 3. *)
Inductive Grant := GIdle | GDrainRequired | GDraining | GDrainMcpPaused | GDrainComplete.

(** Modelled from the spec: the values of the request annotation on the
    node, section 3. *)
Inductive Request := RDrainIdle | RDrainRequired | RRebootRequired.

#[global] Instance Grant_eq_dec : EqDecision Grant.
Proof. solve_decision. Defined.
#[global] Instance Request_eq_dec : EqDecision Request.
Proof. solve_decision. Defined.

(** Modelled from the spec: what the coordinator reads and writes of a
    node; [request] is [None] when the annotation is absent. *)
Record Node := {
  labels : gmap string string;
  unschedulable : bool;
  request : option Request;
}.

(** Modelled from the spec: a MaxUnavailable budget, absolute or a
    percentage, or a value that does not parse. *)
Inductive IntOrString := Absolute (n : Z) | Percent (p : Z) | Unparseable.

(** Modelled from the spec: a PoolConfig without its name; [None] is the
    unset MaxUnavailable. *)
Record PoolSpec := {
  nodeSelector : gmap string string;
  MaxUnavailable : option IntOrString;
}.

(** Modelled from the spec: the objects of the store the reconciler works
    on.  Objects are keyed by name; the node state of a node has the
    node's name and holds the grant ([None] when it has no grant
    annotation).  The default PoolConfig always exists; [poolConfigs] are
    the others. *)
Record Cluster := {
  nodes : gmap string Node;
  nodeStates : gmap string (option Grant);
  defaultPoolConfig : PoolSpec;
  poolConfigs : gmap string PoolSpec;
}.

(** Modelled from the spec: a pool (section 3), by the PoolConfig its
    nodes share: [None] is the default pool, [Some name] the pool of the
    PoolConfig of that name. *)
Abbreviation Pool := (option string).

(** Modelled from the spec: a selector matches the nodes that carry all
    its labels; the empty selector matches every node. *)
Definition selects (ps : PoolSpec) (n : Node) : bool :=
  bool_decide (nodeSelector ps ⊆ labels n).

(** Modelled from the spec: the lexicographically smaller of two names
    (the tie-break of section 3). *)
Definition smaller (a b : string) : string := if String.ltb b a then b else a.

(** Modelled from the spec: the pool of a node (section 3): among the
    non-default PoolConfigs that match, the one with the lexicographically
    smallest name; the default pool when none matches. *)
Definition poolOf (pcs : gmap string PoolSpec) (n : Node) : Pool :=
  match (map_to_list (filter (fun kv => selects kv.2 n = true) pcs)).*1 with
  | [] => None
  | k :: ks => Some (foldr smaller k ks)
  end.

(** Modelled from the spec: the PoolConfig of a pool. *)
Definition specOf (c : Cluster) (p : Pool) : option PoolSpec :=
  match p with
  | None => Some (defaultPoolConfig c)
  | Some k => poolConfigs c !! k
  end.

(** Modelled from the spec: the nodes of a pool. *)
Definition members (pcs : gmap string PoolSpec) (ns : gmap string Node) (p : Pool)
  : gset string :=
  dom (filter (fun kv => poolOf pcs kv.2 = p) ns).

(** Modelled from the spec: the current grant [G] of a node, read from its
    node state (section 4.4, step 3). *)
Definition grantOf (c : Cluster) (n : string) : option Grant :=
  match nodeStates c !! n with
  | Some g => g
  | None => None
  end.

(** Modelled from the spec: the grants that take a slot of the pool
    (section 4.4, step 5). *)
Definition slotTaken (g : option Grant) : bool :=
  match g with
  | Some GDraining | Some GDrainMcpPaused | Some GDrainComplete => true
  | _ => false
  end.

(** Modelled from the spec: the nodes of a pool that take a slot. *)
Definition draining (c : Cluster) (p : Pool) : gset string :=
  filter (fun n => slotTaken (grantOf c n) = true) (members (poolConfigs c) (nodes c) p).

(** Modelled from the spec: the concurrent drains of a pool. *)
Definition concurrent (c : Cluster) (p : Pool) : nat := size (draining c p).

(** Modelled from the spec: the errors of section 7 that a reconcile of
    this model can meet. *)
Inductive ReconcileError :=
| ConfigError
| DrainerError
| PlatformHookError.

(** Modelled from the spec: a resolved MaxUnavailable, "int or ∞". *)
Inductive Cap := Unlimited | AtMost (k : nat).

(** Modelled from the spec: MaxUnavailable resolved against the size of
    the pool (section 4.1): an absolute value passes through, a percentage
    is rounded down and floored at 1, unset is no cap, a value above the
    size of the pool is clamped to it, a negative or unparseable value is
    a ConfigError. *)
Definition resolveMaxUnavailable (mu : option IntOrString) (poolSize : nat)
  : Cap + ReconcileError :=
  match mu with
  | None => inl Unlimited
  | Some (Absolute z) =>
      if (z <? 0)%Z then inr ConfigError
      else inl (AtMost (Nat.min (Z.to_nat z) poolSize))
  | Some (Percent p) =>
      if (p <? 0)%Z then inr ConfigError
      else inl (AtMost (Nat.min (Nat.max 1 (Z.to_nat (p * Z.of_nat poolSize / 100))) poolSize))
  | Some Unparseable => inr ConfigError
  end.

(** Modelled from the spec: the cap of a pool at this reconcile. *)
Definition capOf (c : Cluster) (p : Pool) : Cap + ReconcileError :=
  match specOf c p with
  | Some ps =>
      resolveMaxUnavailable (MaxUnavailable ps) (size (members (poolConfigs c) (nodes c) p))
  | None => inr ConfigError
  end.

(** Modelled from the spec: "admit if concurrent < MaxUnavailable". *)
Definition below (count : nat) (cap : Cap) : bool :=
  match cap with
  | Unlimited => true
  | AtMost k => Nat.ltb count k
  end.

(** Modelled from the spec: the requests that ask for a drain;
    [RebootRequired] counts as [DrainRequired]. *)
Definition wantsDrain (r : option Request) : bool :=
  match r with
  | Some RDrainRequired | Some RRebootRequired => true
  | _ => false
  end.

(** Modelled from the spec: the drainer and the platform hooks
    (sections 2 and 4.5), by what they answer for a node: [inl ready] or
    an error; [poolPaused] is the platform signalling that it paused the
    pool. *)
Record Externals := {
  beforeDrain : string -> bool + ReconcileError;
  poolPaused : string -> bool;
  completeDrain : string -> bool + ReconcileError;
  drainNode : string -> bool + ReconcileError;
}.

(** Modelled from the spec: what [Reconcile] returns: success, a requeue
    hint, or an error. *)
Inductive Outcome := Done | Requeue | Failed (e : ReconcileError).

(** Modelled from the spec: the write of the grant annotation,
    [G := g]. *)
Definition setGrant (c : Cluster) (n : string) (g : Grant) : Cluster :=
  {| nodes := nodes c; nodeStates := <[n := Some g]> (nodeStates c);
     defaultPoolConfig := defaultPoolConfig c; poolConfigs := poolConfigs c |}.

(** Modelled from the spec: the writes to a node: its [unschedulable]
    flag by the coordinator, its request annotation by its agent. *)
Definition withUnschedulable (b : bool) (nd : Node) : Node :=
  {| labels := labels nd; unschedulable := b; request := request nd |}.

Definition withRequest (r : option Request) (nd : Node) : Node :=
  {| labels := labels nd; unschedulable := unschedulable nd; request := r |}.

Definition alterNode (f : Node -> Node) (c : Cluster) (n : string) : Cluster :=
  {| nodes := alter f n (nodes c); nodeStates := nodeStates c;
     defaultPoolConfig := defaultPoolConfig c; poolConfigs := poolConfigs c |}.

(** Modelled from the spec: cordon and uncordon, the writes of
    [unschedulable]. *)
Definition cordon (c : Cluster) (n : string) : Cluster := alterNode (withUnschedulable true) c n.
Definition uncordon (c : Cluster) (n : string) : Cluster := alterNode (withUnschedulable false) c n.

(** Modelled from the spec: [Reconcile(nodeName)], section 4.4 with the
    transitions of section 4.3.  The outcome and the store as the
    reconcile leaves it. *)
Definition Reconcile (ext : Externals) (nodeName : string) (c : Cluster) : Outcome * Cluster :=
  match nodes c !! nodeName, nodeStates c !! nodeName with
  | Some node, Some G =>
      let pool := poolOf (poolConfigs c) node in
      match capOf c pool with
      | inr e => (Failed e, c)
      | inl cap =>
          match G with
          | None => (Done, setGrant c nodeName GIdle)
          | Some G =>
              if wantsDrain (request node) then
                match G with
                | GIdle =>
                    if below (concurrent c pool) cap then
                      let c := cordon c nodeName in
                      match beforeDrain ext nodeName with
                      | inr e => (Failed e, c)
                      | inl _ =>
                          (Done, setGrant c nodeName
                                   (if poolPaused ext nodeName
                                    then GDrainMcpPaused else GDraining))
                      end
                    else (Requeue, c)
                | GDraining | GDrainMcpPaused =>
                    match beforeDrain ext nodeName, drainNode ext nodeName with
                    | inr e, _ => (Failed e, c)
                    | _, inr e => (Failed e, c)
                    | inl true, inl true => (Done, setGrant c nodeName GDrainComplete)
                    | inl _, inl _ => (Requeue, c)
                    end
                | GDrainComplete => (Done, c)
                | GDrainRequired => (Done, c)
                end
              else
                match G with
                | GIdle => (Done, uncordon c nodeName)
                | _ =>
                    let c := uncordon c nodeName in
                    match completeDrain ext nodeName with
                    | inr e => (Failed e, c)
                    | inl true => (Done, setGrant c nodeName GIdle)
                    | inl false => (Requeue, c)
                    end
                end
          end
      end
  | _, _ => (Done, c)
  end.

(** *** Runs of the system

    Modelled from the spec: the agents write requests, the coordinator
    reconciles nodes, one step at a time (section 5: a work-queue
    reconciler; all mutation flows through the object store). *)
Inductive Action :=
| AgentWrites (n : string) (r : Request)
| Reconciles (ext : Externals) (n : string).

Definition perform (a : Action) (c : Cluster) : Cluster :=
  match a with
  | AgentWrites n r => alterNode (withRequest (Some r)) c n
  | Reconciles ext n => (Reconcile ext n c).2
  end.

Definition execute (acts : list Action) (c : Cluster) : Cluster :=
  fold_left (fun c a => perform a c) acts c.



(** A reconcile that takes a node from grant [Idle] to [Draining] or
    [DrainMcpPaused]. *)
Definition admits (ext : Externals) (n : string) (c : Cluster) : Prop :=
  grantOf c n = Some GIdle /\
  (grantOf (Reconcile ext n c).2 n = Some GDraining \/
   grantOf (Reconcile ext n c).2 n = Some GDrainMcpPaused).



(** The hooks and the drainer answer ready and completed. *)
Definition cooperative (ext : Externals) (n : string) : Prop :=
  beforeDrain ext n = inl true /\ drainNode ext n = inl true.

(** Where a node stands on the way to [DrainComplete] in a pool whose
    MaxUnavailable is unset, its request asking for a drain: at grant
    [Idle] (0), admitted and cordoned (1), at [DrainComplete] and cordoned
    (2 and more). *)
Definition stage (k : nat) (c : Cluster) (n : string) : Prop :=
  exists nd ps,
    nodes c !! n = Some nd /\ wantsDrain (request nd) = true /\
    specOf c (poolOf (poolConfigs c) nd) = Some ps /\ MaxUnavailable ps = None /\
    match k with
    | 0 => nodeStates c !! n = Some (Some GIdle)
    | 1 => (nodeStates c !! n = Some (Some GDraining) \/
            nodeStates c !! n = Some (Some GDrainMcpPaused)) /\
           unschedulable nd = true
    | _ => nodeStates c !! n = Some (Some GDrainComplete) /\ unschedulable nd = true
    end.

(** A node of a pool without a cap that requests a drain and has grant
    [Idle]. *)
Definition requestsUncapped (c : Cluster) (n : string) : Prop := stage 0 c n.

Definition drained (c : Cluster) (n : string) : Prop :=
  grantOf c n = Some GDrainComplete /\
  exists nd, nodes c !! n = Some nd /\ unschedulable nd = true.

(** A sequence of reconciles, and how often it reconciles a node. *)
Definition schedule (sched : list (Externals * string)) : list Action :=
  (fun x => Reconciles x.1 x.2) <$> sched.

Definition reconciled (n : string) (sched : list (Externals * string)) : nat :=
  length (filter (fun x => x.2 = n) sched).

(** The adapter of non-platform deployments and a drainer that completes. *)
Definition noop_ext : Externals :=
  {| beforeDrain := fun _ => inl true; poolPaused := fun _ => false;
     completeDrain := fun _ => inl true; drainNode := fun _ => inl true |}.


Definition idle_node : Node :=
  {| labels := {[ "test" := "" ]}; unschedulable := false; request := Some RDrainIdle |}.

(** The fleet of the tests: three idle nodes labelled [test], the default
    pool with MaxUnavailable 1 and the pool [test-workers] that selects
    the label, with the MaxUnavailable given. *)
Definition test_cluster (mu : option IntOrString) : Cluster :=
  {| nodes := {[ "node1" := idle_node; "node2" := idle_node; "node3" := idle_node ]};
     nodeStates := {[ "node1" := Some GIdle; "node2" := Some GIdle; "node3" := Some GIdle ]};
     defaultPoolConfig := {| nodeSelector := ∅; MaxUnavailable := Some (Absolute 1) |};
     poolConfigs :=
       {[ "test-workers" := {| nodeSelector := {[ "test" := "" ]}; MaxUnavailable := mu |} ]} |}.

(** The scenarios of the tests: the three nodes request a drain, each is
    reconciled twice; then the agent of [node1] writes [DrainIdle] and the
    node is reconciled while [completeDrain] is not ready. *)
Definition requests3 : list Action :=
  [AgentWrites "node1" RDrainRequired; AgentWrites "node2" RDrainRequired;
   AgentWrites "node3" RDrainRequired].

Definition twice3 : list (Externals * string) :=
  [(noop_ext, "node1"); (noop_ext, "node2"); (noop_ext, "node3");
   (noop_ext, "node1"); (noop_ext, "node2"); (noop_ext, "node3")].


Definition all3 : gset string := {[ "node1"; "node2"; "node3" ]}.

End Coordinator.

(** * Properties *)

Module PredicateProps.
Import K8s DrainAnnotationPredicate.

Section WithConsts.
Context `{Consts}.

(** C5: a create event with a non-nil object is accepted exactly when
    the node carries the request annotation key, whatever its value. *)
Theorem Create_accepts_iff_has_request (obj : Node) :
  Create {| Object := Some obj |} = true <-> is_Some (request_of obj).
Proof.
  unfold Create, request_of; simpl.
  destruct (go_lookup _ _) as [v|]; split; intros Hx; eauto.
  - discriminate.
  - by destruct Hx.
Qed.

(** C1 (amended): an update event with non-nil old and new objects is
    accepted exactly when the request annotation is present on both
    sides with different values; in particular an update that leaves
    the request annotation as it was is rejected. *)
Theorem Update_accepts_iff_both_present_and_differ (objOld objNew : Node) :
  (Update {| ObjectOld := Some objOld; ObjectNew := Some objNew |} = true <->
   exists o n, request_of objOld = Some o /\ request_of objNew = Some n /\ o <> n)
  /\ (request_of objOld = request_of objNew ->
      Update {| ObjectOld := Some objOld; ObjectNew := Some objNew |} = false).
Proof.
  unfold Update, request_of; simpl.
  destruct (go_lookup (GetAnnotations objOld) _) as [o|],
           (go_lookup (GetAnnotations objNew) _) as [n|]; simpl.
  - split.
    + rewrite negb_true_iff, bool_decide_eq_false. split.
      * intros Hne. exists o, n. done.
      * intros (o' & n' & [= <-] & [= <-] & Hne). done.
    + intros [= ->]. by rewrite bool_decide_eq_true_2.
  - split; [|done]. split; [done|]. by intros (? & ? & _ & ? & _).
  - split; [|done]. split; [done|]. by intros (? & ? & ? & _).
  - split; [|done]. split; [done|]. by intros (? & ? & ? & _).
Qed.

End WithConsts.

(** C1 as stated fails: the annotation goes from present to absent, its
    value changed, and the filter still rejects the event. *)
Lemma Update_rejects_present_to_absent :
  @request_of test_consts requesting_node <> @request_of test_consts bare_node /\
  @Update test_consts {| ObjectOld := Some requesting_node; ObjectNew := Some bare_node |}
  = false /\
  ~ (forall o n : Node,
       @Update test_consts {| ObjectOld := Some o; ObjectNew := Some n |} = true <->
       @request_of test_consts o <> @request_of test_consts n).
Proof.
  assert (Hne : @request_of test_consts requesting_node <> @request_of test_consts bare_node)
    by (by vm_compute).
  assert (Hrej : @Update test_consts
                   {| ObjectOld := Some requesting_node; ObjectNew := Some bare_node |} = false)
    by (by vm_compute).
  split; [done|]. split; [done|].
  intros Hall. apply Hall in Hne. rewrite Hrej in Hne. discriminate.
Qed.

End PredicateProps.

Module ClusterProps.
Import K8s Cluster.

Lemma go_lookup_json (m : gomap) (i : string) : go_lookup m i = json_map m !! i.
Proof. by destruct m. Qed.

Lemma go_lookup_of_json (m : gmap string string) (i : string) :
  go_lookup (of_json_map m) i = m !! i.
Proof. unfold of_json_map. case_decide; [by subst|done]. Qed.

Lemma go_index_lookup (m : gomap) (k v : string) :
  go_lookup m k = Some v -> go_index m k = v.
Proof. unfold go_index. by intros ->. Qed.

Lemma diff_map_store (a : gomap) (k v : string) :
  go_lookup a k <> Some v ->
  diff_map a (go_store a k v) = {[ k := Some v ]}.
Proof.
  intros Hne. apply map_eq; intros i. unfold diff_map, go_store; simpl.
  rewrite lookup_merge. rewrite go_lookup_json in Hne.
  destruct (decide (k = i)) as [<-|Hki].
  - rewrite lookup_insert_eq, lookup_singleton_eq.
    destruct (json_map a !! k) as [o|]; simpl; [|done].
    case_decide; [congruence|done].
  - rewrite lookup_insert_ne, lookup_singleton_ne by done.
    destruct (json_map a !! i) as [o|]; simpl; [|done]. by case_decide.
Qed.

Lemma diff_map_refl (a : gomap) : diff_map a a = ∅.
Proof.
  apply map_eq; intros i. unfold diff_map. rewrite lookup_merge, lookup_empty.
  destruct (json_map a !! i); simpl; [|done]. by case_decide.
Qed.

Lemma diff_field_refl {A} `{EqDecision A} (x : A) : diff_field x x = None.
Proof. unfold diff_field. by case_decide. Qed.

Lemma apply_map_singleton (cur : gomap) (k v i : string) :
  go_lookup (apply_map cur {[ k := Some v ]}) i =
  if decide (k = i) then Some v else go_lookup cur i.
Proof.
  unfold apply_map. rewrite go_lookup_of_json, lookup_merge, go_lookup_json.
  case_decide as Hki.
  - subst. rewrite lookup_singleton_eq. by destruct (json_map cur !! i).
  - rewrite lookup_singleton_ne by done. by destruct (json_map cur !! i).
Qed.

Lemma apply_map_empty (cur : gomap) (i : string) :
  go_lookup (apply_map cur ∅) i = go_lookup cur i.
Proof.
  unfold apply_map. rewrite go_lookup_of_json, lookup_merge, go_lookup_json, lookup_empty.
  by destruct (json_map cur !! i).
Qed.

(** The patch of a node against the same node with one annotation set. *)
Lemma patch_of_store (n : Node) (a : gomap) (k v : string) :
  json_map a = json_map (Annotations (meta n)) ->
  go_lookup (Annotations (meta n)) k <> Some v ->
  CreateTwoWayMergePatch n (set_annotations (set_annotations n a) (go_store a k v))
  = annotation_patch k v.
Proof.
  intros Hja Hne. unfold CreateTwoWayMergePatch, annotation_patch; simpl.
  rewrite !diff_field_refl, diff_map_refl. f_equal.
  unfold go_store. rewrite Hja.
  by apply (diff_map_store (Annotations (meta n))).
Qed.

Lemma applyPatch_annotation_frame (k v : string) (cur : Node) :
  same_but_annotation k (applyPatch (annotation_patch k v) cur) cur /\
  go_lookup (Annotations (meta (applyPatch (annotation_patch k v) cur))) k = Some v.
Proof.
  unfold same_but_annotation; simpl. repeat split.
  - intros i. apply apply_map_empty.
  - intros i Hi. rewrite apply_map_singleton. by case_decide.
  - by destruct cur as [m [] st].
  - by destruct cur as [m sp []].
  - rewrite apply_map_singleton. by case_decide.
Qed.

Section WithConsts.
Context `{Consts}.

(** On a node that has the value already, [AnnotateNode] only reads. *)
Lemma AnnotateNode_settled (kc : KubeClient) (node value : string) (n : Node) :
  nodes kc !! node = Some n ->
  go_index (Annotations (meta n)) NodeDrainAnnotation = value ->
  read_only node kc (AnnotateNode node value kc).2.
Proof.
  intros Hn Hv. unfold AnnotateNode, Get.
  destruct (next_fault kc); [done|]. rewrite Hn.
  assert (Hidx : go_index (Annotations (meta (match Annotations (meta n) with
                   | None => set_annotations n (Some ∅) | Some _ => n end)))
                   NodeDrainAnnotation = value).
  { destruct n as [[nm g l [a|]] sp st]; [done|]. simpl in *. by rewrite <- Hv. }
  rewrite decide_False; [done|]. intros Hx. by apply Hx.
Qed.

Lemma AnnotateNode_missing (kc : KubeClient) (node value : string) :
  nodes kc !! node = None -> read_only node kc (AnnotateNode node value kc).2.
Proof.
  intros Hn. unfold AnnotateNode, Get.
  destruct (next_fault kc); [done|]. by rewrite Hn.
Qed.

(** All that [AnnotateNode] can do on a node that the store holds: the
    read, then possibly the patch of the request annotation, which the
    server applies or fails. *)
Lemma AnnotateNode_found (kc : KubeClient) (node value : string) (n : Node) :
  nodes kc !! node = Some n ->
  let ap := annotation_patch NodeDrainAnnotation value in
  exists applied sent : bool,
    nodes (AnnotateNode node value kc).2 =
      (if applied then <[node := applyPatch ap n]> (nodes kc) else nodes kc) /\
    calls (AnnotateNode node value kc).2 =
      calls kc ++ [CallGet node] ++ (if sent then [CallPatch node ap] else []) /\
    (applied = true ->
     go_index (Annotations (meta n)) NodeDrainAnnotation <> value /\
     (AnnotateNode node value kc).1 = None) /\
    ((AnnotateNode node value kc).1 = None -> applied = false ->
     go_index (Annotations (meta n)) NodeDrainAnnotation = value).
Proof.
  intros Hn ap. unfold AnnotateNode, Get.
  destruct (next_fault kc) eqn:Hf.
  { exists false, false. simpl. repeat split; done. }
  rewrite Hn.
  set (a' := match Annotations (meta n) with
             | None => Some ∅ | Some _ => Annotations (meta n) end).
  assert (Hja : json_map a' = json_map (Annotations (meta n)))
    by (subst a'; by destruct (Annotations (meta n))).
  assert (Hnew : match Annotations (meta n) with
                 | None => set_annotations n (Some ∅) | Some _ => n end
                 = set_annotations n a').
  { subst a'. destruct n as [[nm g l [a|]] sp st]; done. }
  rewrite Hnew; simpl.
  assert (Hidx : go_index a' NodeDrainAnnotation
                 = go_index (Annotations (meta n)) NodeDrainAnnotation).
  { unfold go_index. by rewrite !go_lookup_json, Hja. }
  rewrite Hidx. case_decide as Hd.
  - assert (Hne : go_lookup (Annotations (meta n)) NodeDrainAnnotation <> Some value).
    { intros Heq. apply Hd. by apply go_index_lookup. }
    assert (Hp : CreateTwoWayMergePatch n
                   (set_annotations (set_annotations n a')
                      (go_store a' NodeDrainAnnotation value)) = ap)
      by (by apply patch_of_store).
    unfold set_annotations in Hp |- *; simpl in Hp |- *. rewrite Hp.
    unfold Patch, served, next_fault; simpl.
    destruct (tail (faults kc)) as [|[err|] rest]; simpl; rewrite ?Hn; simpl;
      rewrite <- app_assoc; simpl;
      [exists true, true | exists false, true | exists true, true];
      repeat split; done.
  - exists false, false. simpl. repeat split; done.
Qed.

(** After a successful [AnnotateNode] the node has the value. *)
Lemma AnnotateNode_success (kc : KubeClient) (node value : string) :
  (AnnotateNode node value kc).1 = None ->
  exists n', nodes (AnnotateNode node value kc).2 !! node = Some n' /\
             go_index (Annotations (meta n')) NodeDrainAnnotation = value.
Proof.
  intros Hok. destruct (nodes kc !! node) as [n|] eqn:Hn.
  - destruct (AnnotateNode_found kc node value n Hn) as (applied & sent & Hns & _ & Ha & Hb).
    rewrite Hns. destruct applied.
    + eexists. rewrite lookup_insert_eq. split; [done|].
      apply go_index_lookup, applyPatch_annotation_frame.
    + exists n. split; [done|]. by apply Hb.
  - revert Hok. unfold AnnotateNode, Get.
    destruct (next_fault kc); [done|]. by rewrite Hn.
Qed.

(** Without failures of the server, [AnnotateNode] succeeds on a node of
    the store. *)
Lemma AnnotateNode_no_faults (kc : KubeClient) (node value : string) (n : Node) :
  faults kc = [] -> nodes kc !! node = Some n ->
  (AnnotateNode node value kc).1 = None.
Proof.
  intros Hf Hn. unfold AnnotateNode, Get, Patch, served, next_fault.
  rewrite Hf, Hn; simpl. case_decide; [|done]. by rewrite Hn.
Qed.

(** C3: when the request annotation already has the value, the only
    request issued is the read and the store is left as it was; after an
    [AnnotateNode] that succeeded, and after any [AnnotateNode] when the
    server fails no request, a second one with the same value issues only
    the read and leaves the store as the first one left it. *)
Theorem AnnotateNode_idempotent (kc : KubeClient) (node value : string) :
  (forall n, nodes kc !! node = Some n ->
     go_lookup (Annotations (meta n)) NodeDrainAnnotation = Some value ->
     read_only node kc (AnnotateNode node value kc).2)
  /\ ((AnnotateNode node value kc).1 = None ->
      read_only node (AnnotateNode node value kc).2
        (AnnotateNode node value (AnnotateNode node value kc).2).2)
  /\ (faults kc = [] ->
      read_only node (AnnotateNode node value kc).2
        (AnnotateNode node value (AnnotateNode node value kc).2).2).
Proof.
  assert (Hsecond : (AnnotateNode node value kc).1 = None ->
            read_only node (AnnotateNode node value kc).2
              (AnnotateNode node value (AnnotateNode node value kc).2).2).
  { intros Hok. destruct (AnnotateNode_success kc node value Hok) as (n' & Hn' & Hv).
    by eapply AnnotateNode_settled. }
  split; [|split; [done|]].
  - intros n Hn Ha. eapply AnnotateNode_settled; [done|]. by apply go_index_lookup.
  - intros Hf. destruct (nodes kc !! node) as [n|] eqn:Hn.
    + apply Hsecond. by eapply AnnotateNode_no_faults.
    + apply AnnotateNode_missing.
      destruct (AnnotateNode_missing kc node value Hn) as [-> _]. done.
Qed.

(** C10: the only patch [AnnotateNode] submits sets the request
    annotation and names no other field; applied to whatever node the
    server holds, that patch leaves the other annotations, the labels,
    the spec and the status as they were, and so does the whole
    operation on the store, which also leaves every other node alone. *)
Theorem AnnotateNode_frame (kc : KubeClient) (node value : string) (n : Node) :
  nodes kc !! node = Some n ->
  let kc' := (AnnotateNode node value kc).2 in
  (forall name p, CallPatch name p ∈ calls kc' ->
     CallPatch name p ∈ calls kc \/
     (name = node /\ p = annotation_patch NodeDrainAnnotation value))
  /\ (forall cur : Node,
        same_but_annotation NodeDrainAnnotation
          (applyPatch (annotation_patch NodeDrainAnnotation value) cur) cur)
  /\ (exists n', nodes kc' !! node = Some n' /\
                 same_but_annotation NodeDrainAnnotation n' n)
  /\ (forall other, other <> node -> nodes kc' !! other = nodes kc !! other).
Proof.
  intros Hn kc'. subst kc'.
  destruct (AnnotateNode_found kc node value n Hn) as (applied & sent & Hns & Hcs & _).
  rewrite Hns, Hcs. split; [|split; [|split]].
  - intros name p. rewrite !elem_of_app, list_elem_of_singleton.
    intros [?|[?|Hp]]; [by left|done|]. destruct sent; [|by apply elem_of_nil in Hp].
    apply list_elem_of_singleton in Hp as [= -> ->]. by right.
  - intros cur. apply applyPatch_annotation_frame.
  - destruct applied.
    + eexists. rewrite lookup_insert_eq. split; [done|].
      apply applyPatch_annotation_frame.
    + exists n. split; [done|]. by repeat split.
  - intros other Hother. destruct applied; [|done]. by rewrite lookup_insert_ne.
Qed.

End WithConsts.

(** The node requests a drain already: asking for [DrainRequired] again
    only reads it. *)
Lemma AnnotateNode_idempotent_witness :
  read_only "node1" test_client
    (@AnnotateNode test_consts "node1" (@DrainRequired test_consts) test_client).2.
Proof.
  refine (proj1 (@AnnotateNode_idempotent test_consts test_client "node1"
                   (@DrainRequired test_consts))
            DrainAnnotationPredicate.requesting_node _ _).
  - vm_compute. reflexivity.
  - vm_compute. reflexivity.
Defined.

(** Setting the request of the node to [DrainIdle]: the node in the store
    afterwards differs from the one before in that annotation only. *)
Lemma AnnotateNode_frame_witness :
  exists n',
    nodes (@AnnotateNode test_consts "node1" (@DrainIdle test_consts) test_client).2
      !! "node1" = Some n' /\
    same_but_annotation (@NodeDrainAnnotation test_consts) n'
      DrainAnnotationPredicate.requesting_node.
Proof.
  refine (proj1 (proj2 (proj2
            (@AnnotateNode_frame test_consts test_client "node1" (@DrainIdle test_consts)
               DrainAnnotationPredicate.requesting_node _)))).
  vm_compute. reflexivity.
Defined.

End ClusterProps.

Module PluginProps.
Import sriovnetworkv1.

(** The generic plugin answers a reboot only together with a drain. *)
Lemma generic_reboot_implies_drain (h : GenericPlugin.Host) (p : GenericPlugin.GenericPlugin)
    (new : SriovNetworkNodeState) :
  forall d r e p', GenericPlugin.OnNodeStateChange h p new = (d, r, e, p') ->
    r = true -> d = true.
Proof.
  intros d r e p'. unfold GenericPlugin.OnNodeStateChange, GenericPlugin.needRebootNode.
  destruct (GenericPlugin.syncDesiredKernelArgs _ _) as [[u [err|]] q].
  - intros [= <- <- <- <-]. done.
  - destruct (GenericPlugin.WriteSwitchdevConfFile _ _) as [u' [err|]].
    + intros [= <- <- <- <-]. done.
    + intros [= <- <- <- <-]. by intros ->.
Qed.

Section Mellanox.
Import MellanoxPlugin.
Variable helpers : Helpers.

(** A [return] from inside one of the loops carries either both flags
    or none. *)
Lemma specLoop_return st sp todo ls d r e ls' :
  specLoop helpers st sp todo ls = inl (d, r, e, ls') -> r = true -> d = true.
Proof.
  revert ls. induction todo as [|[k ifaceSpec] rest IH]; intros ls; simpl; [done|].
  destruct (processedNics ls !! _); [by apply IH|].
  destruct (GetMlxNicFwData _ _) as [[fwc fwn]|err]; [|by intros [= <- <- <- <-]].
  destruct (HandleTotalVfs _ _ _ _ _ _ _) as [[[tv nr] cw] at1].
  destruct (HandleEnableSriov _ _ _ _ _) as [[sr sc] at2].
  destruct (ExternallyManaged ifaceSpec && (nr || sr)); [by intros [= <- <- <- <-]|].
  destruct (HandleLinkType _ _ _ _ _ _) as [[lc [err|]] at3];
    [by intros [= <- <- <- <-]|].
  apply IH.
Qed.

Lemma statusLoop_return todo ls d r e ls' :
  statusLoop helpers todo ls = inl (d, r, e, ls') -> r = true -> d = true.
Proof.
  revert ls. induction todo as [|[pfx ports] rest IH]; intros ls; simpl; [done|].
  destruct (processedNics ls !! _); [by apply IH|].
  case_bool_decide; [by apply IH|].
  destruct (GetMlxNicFwData _ _) as [[fwc fwn]|err]; [|by intros [= <- <- <- <-]].
  destruct (_ || _); apply IH.
Qed.

Lemma mellanox_reboot_implies_drain (g : Globals) (new : SriovNetworkNodeState) :
  forall d r e g', OnNodeStateChange helpers g new = (d, r, e, g') ->
    r = true -> d = true.
Proof.
  intros d r e g'. unfold OnNodeStateChange.
  destruct (IsKernelLockdownMode helpers).
  { case_decide; by intros [= <- <- <- <-]. }
  destruct (specLoop _ _ _ _ _) as [[[[d1 r1] e1] ls1]|ls1] eqn:Hs.
  { intros [= <- <- <- <-]. by eapply specLoop_return. }
  destruct (statusLoop _ _ _) as [[[[d2 r2] e2] ls2]|ls2] eqn:Ht.
  { intros [= <- <- <- <-]. by eapply statusLoop_return. }
  intros [= <- <- <- <-]. by intros ->.
Qed.
End Mellanox.

(** C9: for the generic plugin and for the mellanox plugin, on every
    node state and whatever the host answers, [OnNodeStateChange] returns
    [needReboot = true] only together with [needDrain = true], on its
    error returns as well. *)
Theorem OnNodeStateChange_reboot_implies_drain :
  (forall (h : GenericPlugin.Host) (p : GenericPlugin.GenericPlugin)
          (new : SriovNetworkNodeState),
     let '(needDrain, needReboot, _, _) := GenericPlugin.OnNodeStateChange h p new in
     needReboot = true -> needDrain = true)
  /\ (forall (helpers : MellanoxPlugin.Helpers) (g : MellanoxPlugin.Globals)
             (new : SriovNetworkNodeState),
        let '(needDrain, needReboot, _, _) :=
          MellanoxPlugin.OnNodeStateChange helpers g new in
        needReboot = true -> needDrain = true).
Proof.
  split.
  - intros h p new.
    destruct (GenericPlugin.OnNodeStateChange h p new) as [[[d r] e] p'] eqn:Heq.
    by eapply generic_reboot_implies_drain.
  - intros helpers g new.
    destruct (MellanoxPlugin.OnNodeStateChange helpers g new) as [[[d r] e] g'] eqn:Heq.
    by eapply mellanox_reboot_implies_drain.
Qed.

(** The generic plugin on a host whose kernel-argument script reports a
    change: a reboot is needed, and so is a drain. *)
Lemma OnNodeStateChange_reboot_implies_drain_witness :
  (GenericPlugin.OnNodeStateChange GenericPlugin.test_host GenericPlugin.test_plugin
     GenericPlugin.test_state).1.1.1 = true.
Proof.
  pose proof (proj1 OnNodeStateChange_reboot_implies_drain GenericPlugin.test_host
                GenericPlugin.test_plugin GenericPlugin.test_state) as Hw.
  destruct (GenericPlugin.OnNodeStateChange GenericPlugin.test_host GenericPlugin.test_plugin
              GenericPlugin.test_state) as [[[d r] e] p'] eqn:Heq.
  simpl. apply Hw.
  apply (f_equal (fun x => x.1.1.2)) in Heq. simpl in Heq. rewrite <- Heq.
  vm_compute. reflexivity.
Defined.

End PluginProps.

Module DaemonProps.
Import K8s sriovnetworkv1 Daemon.

Section Emits.
Variable nm : string.
Variable P : Event -> Prop.

Lemma emits_ret {A} (a : A) : emits nm P (ret a).
Proof. by intros s r s' [= <- <-]. Qed.

Lemma emits_Return {A} (e : option goerror) : emits nm P (@Return A e).
Proof. by intros s r s' [= <- <-]. Qed.

Lemma emits_emit (e : Event) : P e -> emits nm P (emit e).
Proof.
  intros He s r s' [= <- <-] Hn Hall; simpl. split; [done|].
  apply Forall_app; split; [done|]. by constructor.
Qed.

Lemma emits_setDn (d : Daemon) : name d = nm -> emits nm P (setDn d).
Proof. by intros Hd s r s' [= <- <-]. Qed.

Lemma emits_bind {A B} (m : M A) (k : A -> M B) :
  emits nm P m -> (forall a, emits nm P (k a)) -> emits nm P (bind m k).
Proof.
  intros Hm Hk s r s'. unfold bind.
  destruct (m s) as [[a|e] s1] eqn:Hms; intros Hr Hn Hall.
  - destruct (Hm _ _ _ Hms Hn Hall) as [Hn1 Hall1]. by eapply Hk.
  - injection Hr as <- <-. by eapply Hm.
Qed.

Lemma emits_getDn {B} (k : Daemon -> M B) :
  (forall d, name d = nm -> emits nm P (k d)) -> emits nm P (bind getDn k).
Proof. intros Hk s r s'. unfold bind, getDn. intros Hr Hn. by eapply Hk. Qed.

Lemma emits_try {A} (r : A + goerror) : emits nm P (try r).
Proof. destruct r; [apply emits_ret|apply emits_Return]. Qed.

Lemma emits_check (r : option goerror) : emits nm P (check r).
Proof. destruct r; [apply emits_Return|apply emits_ret]. Qed.

Lemma emits_when (b : bool) (m : M unit) : emits nm P m -> emits nm P (when b m).
Proof. destruct b; [done|intros _; apply emits_ret]. Qed.
End Emits.

(** One step of a proof that a piece of the handler emits only events
    of some kind: take the piece apart along its binds and branches. *)
Ltac emits_step :=
  first
    [ apply emits_ret | apply emits_Return | apply emits_try | apply emits_check
    | apply emits_getDn; intros ? ?
    | apply emits_bind; [|intros ?]
    | apply emits_when
    | apply emits_setDn; simpl; assumption
    | apply emits_emit; simpl; auto
    | match goal with
      | |- emits _ _ (match ?x with _ => _ end) => destruct x eqn:?
      | |- emits _ _ (if ?b then _ else _) => destruct b eqn:?
      end ].

Section WithEnv.
Context `{Consts}.
Variable env : Env.

Section Named.
Variable nm : string.

Local Abbreviation ok := (emits nm (agent_event_ok nm)).

Lemma pollPod_ok pod n : ok (pollPod pod n).
Proof. induction n as [|n IH]; simpl; repeat emits_step. apply IH. Qed.

Lemma restartDevicePluginPod_ok : ok (restartDevicePluginPod env).
Proof.
  unfold restartDevicePluginPod. repeat emits_step; try apply pollPod_ok;
    repeat emits_step.
Qed.

Lemma onNodeStateChangeLoop_ok ps desired d r :
  ok (onNodeStateChangeLoop ps desired d r).
Proof.
  revert d r. induction ps as [|[k p] rest IH]; intros d r; simpl;
    repeat emits_step. apply IH.
Qed.

Lemma applyVendorLoop_ok ps : ok (applyVendorLoop env ps).
Proof. induction ps as [|[k p] rest IH]; simpl; repeat emits_step; apply IH. Qed.

Lemma generationUnchanged_ok : ok (generationUnchanged env).
Proof. unfold generationUnchanged, refresh. repeat emits_step. Qed.

Lemma beforeGate_ok : ok (beforeGate env).
Proof.
  unfold beforeGate, refresh.
  repeat (first [ apply generationUnchanged_ok | apply onNodeStateChangeLoop_ok
                | apply applyVendorLoop_ok | emits_step ]).
Qed.

Lemma drainGate_ok reqDrain : ok (drainGate env reqDrain).
Proof. unfold drainGate, applyDrainRequired. repeat emits_step. Qed.

Lemma afterGate_ok sriovResult reqReboot : ok (afterGate env sriovResult reqReboot).
Proof.
  unfold afterGate, applyIfEnabled, refresh.
  repeat (first [ apply restartDevicePluginPod_ok | emits_step ]).
Qed.

Lemma nodeStateSyncHandler_ok : ok (nodeStateSyncHandler env).
Proof.
  unfold nodeStateSyncHandler.
  apply emits_bind; [apply beforeGate_ok|]. intros [reqDrain reqReboot].
  apply emits_bind; [apply drainGate_ok|]. intros _. apply afterGate_ok.
Qed.
End Named.
(** C4: whatever the outside answers, every request the handler issues
    through its clients is a read of the node state or concerns pods, and
    every call of [utils.AnnotateNode] sets the request annotation of the
    daemon's own node, to [DrainRequired] or to [DrainIdle]; no request
    writes a node state, so none writes the grant annotation. *)
Theorem agent_writes_only_request (d : Daemon) :
  Forall (agent_event_ok (name d)) (trace (run env d).2).
Proof.
  unfold run.
  destruct (nodeStateSyncHandler env {| dn := d; trace := [] |}) as [[a|e] s'] eqn:Hrun;
    by eapply (nodeStateSyncHandler_ok (name d)) in Hrun as [_ Hall].
Qed.

Lemma ObjectHasAnnotation_grant (d : Daemon) (v : string) :
  ObjectHasAnnotation (desiredNodeState d) NodeStateDrainAnnotationCurrent v = true
  <-> grant d = Some v.
Proof.
  unfold ObjectHasAnnotation, grant. destruct (go_lookup _ _) as [a|]; [|done].
  rewrite bool_decide_eq_true. split; congruence.
Qed.

Lemma isNodeDraining_grant (d : Daemon) :
  isNodeDraining d = true <-> grant d = Some Draining \/ grant d = Some DrainMcpPaused.
Proof.
  unfold isNodeDraining, grant. destruct (go_lookup _ _) as [a|].
  - rewrite orb_true_iff, !bool_decide_eq_true. split; intros [?|?]; auto; left + right; congruence.
  - split; [done|]. by intros [?|?].
Qed.

(** What the gate does when a drain is required. *)
Lemma drainGate_required (s : St) :
  drainGate env true s =
  if ObjectHasAnnotation (desiredNodeState (dn s)) NodeStateDrainAnnotationCurrent DrainComplete
  then (inl tt, s)
  else if isNodeDraining (dn s) then (inr None, s)
  else if disableDrain (dn s) then (inl tt, s)
  else (inr (AnnotateNode env (name (dn s)) NodeDrainAnnotation DrainRequired),
        {| dn := dn s;
           trace := trace s ++
                    [AnnotateNodeCall (name (dn s)) NodeDrainAnnotation DrainRequired] |}).
Proof.
  unfold drainGate, bind, getDn; simpl.
  destruct (ObjectHasAnnotation _ _ DrainComplete); [done|].
  destruct (isNodeDraining (dn s)); [done|]. simpl.
  by destruct (disableDrain (dn s)).
Qed.

(** C6 (amended): in a sync that reaches the drain gate with a drain
    required, a grant of [Draining] or [DrainMcpPaused] makes the handler
    return nil there, with nothing done past the gate; the handler goes on
    past the gate exactly when the grant is [DrainComplete], or when the
    operator configuration disables draining and the grant is neither
    [Draining] nor [DrainMcpPaused]; otherwise it asks [utils.AnnotateNode]
    for [DrainRequired] and returns what that returns. *)
Theorem drainGate_honors_grant (s s1 : St) (reqReboot : bool) :
  Draining <> DrainComplete -> DrainMcpPaused <> DrainComplete ->
  beforeGate env s = (inl (true, reqReboot), s1) ->
  (grant (dn s1) = Some Draining \/ grant (dn s1) = Some DrainMcpPaused ->
     nodeStateSyncHandler env s = (inr None, s1))
  /\ (proceeds (drainGate env true s1) <->
      grant (dn s1) = Some DrainComplete \/
      (disableDrain (dn s1) = true /\
       grant (dn s1) <> Some Draining /\ grant (dn s1) <> Some DrainMcpPaused))
  /\ (disableDrain (dn s1) = false ->
      grant (dn s1) <> Some DrainComplete ->
      grant (dn s1) <> Some Draining -> grant (dn s1) <> Some DrainMcpPaused ->
      nodeStateSyncHandler env s =
      (inr (AnnotateNode env (name (dn s1)) NodeDrainAnnotation DrainRequired),
       {| dn := dn s1;
          trace := trace s1 ++
                   [AnnotateNodeCall (name (dn s1)) NodeDrainAnnotation DrainRequired] |})).
Proof.
  intros Hd Hm Hbefore.
  assert (Hhandler : nodeStateSyncHandler env s =
            match drainGate env true s1 with
            | (inl _, s2) =>
                afterGate env {| rSyncStatus := syncStatusSucceeded; rLastSyncError := "" |}
                  reqReboot s2
            | (inr r, s2) => (inr r, s2)
            end).
  { unfold nodeStateSyncHandler. unfold bind at 1. rewrite Hbefore.
    unfold bind at 1. by destruct (drainGate env true s1) as [[[]|r] s2]. }
  rewrite Hhandler, drainGate_required.
  destruct (ObjectHasAnnotation _ _ DrainComplete) eqn:Hc.
  - apply ObjectHasAnnotation_grant in Hc. split; [|split].
    + intros [Hg|Hg]; rewrite Hg in Hc; congruence.
    + split; [by left|]. intros _. by exists tt.
    + intros _ Hnc. done.
  - assert (Hnc : grant (dn s1) <> Some DrainComplete).
    { intros Hg. apply ObjectHasAnnotation_grant in Hg. congruence. }
    destruct (isNodeDraining (dn s1)) eqn:Hdr.
    + apply isNodeDraining_grant in Hdr. split; [done|]. split.
      * split; [by intros [a [=]]|]. intros [?|(_ & ? & ?)]; [done|]. by destruct Hdr.
      * intros _ _ ? ?. by destruct Hdr.
    + assert (Hnd : ~ (grant (dn s1) = Some Draining \/ grant (dn s1) = Some DrainMcpPaused)).
      { intros Hg. apply isNodeDraining_grant in Hg. congruence. }
      split; [done|]. destruct (disableDrain (dn s1)); split.
      * split; [|intros _; by exists tt]. intros _. right. repeat split; intros ?; apply Hnd; auto.
      * done.
      * split; [by intros [a [=]]|]. intros [?|([=] & _)]. done.
      * done.
Qed.

End WithEnv.

(** The theorem at work: the grant is [Draining], a plugin asks for a
    drain, and the handler returns nil at the gate. *)
Lemma drainGate_honors_grant_witness :
  @nodeStateSyncHandler test_consts env_draining (start false) = (inr None, at_gate_draining).
Proof.
  refine (proj1 (@drainGate_honors_grant test_consts env_draining (start false)
                   at_gate_draining false _ _ _) _).
  - intros Hx; vm_compute in Hx; discriminate.
  - intros Hx; vm_compute in Hx; discriminate.
  - vm_compute. reflexivity.
  - left. vm_compute. reflexivity.
Defined.

(** While the grant is [Draining] the handler waits at the gate, and by
    then the vendor plugins other than the generic and the virtual one
    have been applied: their [Apply] comes before the gate. *)
Example vendor_plugin_applied_before_gate :
  @run test_consts (with_vendor env_draining) (test_daemon false) =
  (None, (@beforeGate test_consts (with_vendor env_draining) (start false)).2) /\
  last (trace (@run test_consts (with_vendor env_draining) (test_daemon false)).2)
  = Some (PluginApply "mellanox_plugin").
Proof. split; vm_compute; reflexivity. Qed.

(** C6 as stated fails: draining is disabled in the operator
    configuration, the grant is [Idle], a plugin asks for a drain, and the
    handler goes past the gate and applies the generic plugin. *)
Lemma drainGate_disableDrain_proceeds :
  @beforeGate test_consts env_idle (start true) = (inl (true, false), at_gate_disabled) /\
  proceeds (@drainGate test_consts env_idle true at_gate_disabled) /\
  @grant test_consts (dn at_gate_disabled) = Some (@DrainIdle test_consts) /\
  @grant test_consts (dn at_gate_disabled) <> Some (@DrainComplete test_consts) /\
  trace (@run test_consts env_idle (test_daemon true)).2 =
    trace at_gate_disabled ++
      [PluginApply GenericPluginName; ApiCall RPod VList "";
       AnnotateNodeCall "node1" (@NodeDrainAnnotation test_consts) (@DrainIdle test_consts);
       Refresh {| syncStatus := "Succeeded"; lastSyncError := "" |}] /\
  ~ (forall (env : Env) (s s1 : St) (reqReboot : bool),
       @beforeGate test_consts env s = (inl (true, reqReboot), s1) ->
       proceeds (@drainGate test_consts env true s1) ->
       @grant test_consts (dn s1) = Some (@DrainComplete test_consts)).
Proof.
  assert (Hb : @beforeGate test_consts env_idle (start true)
               = (inl (true, false), at_gate_disabled))
    by (vm_compute; reflexivity).
  assert (Hp : proceeds (@drainGate test_consts env_idle true at_gate_disabled))
    by (exists tt; vm_compute; reflexivity).
  assert (Hn : @grant test_consts (dn at_gate_disabled) <> Some (@DrainComplete test_consts))
    by (intros Hx; vm_compute in Hx; discriminate).
  split; [done|]. split; [done|]. split; [vm_compute; reflexivity|].
  split; [done|]. split; [vm_compute; reflexivity|].
  intros Hall. apply Hn. by eapply Hall.
Qed.

End DaemonProps.

Module CoordinatorProps.
Import Coordinator.

Lemma poolOf_labels (pcs : gmap string PoolSpec) (a b : Node) :
  labels a = labels b -> poolOf pcs a = poolOf pcs b.
Proof. intros Hl. unfold poolOf, selects. by rewrite Hl. Qed.




Lemma grantOf_setGrant (c : Cluster) (n x : string) (g : Grant) :
  grantOf (setGrant c n g) x = if decide (n = x) then Some g else grantOf c x.
Proof.
  unfold grantOf, setGrant; simpl. rewrite lookup_insert. by case_decide.
Qed.












Lemma grantOf_lookup (c : Cluster) (n : string) (G : option Grant) :
  nodeStates c !! n = Some G -> grantOf c n = G.
Proof. unfold grantOf. by intros ->. Qed.








Lemma elem_of_all3 (n : string) : n ∈ all3 -> n = "node1" \/ n = "node2" \/ n = "node3".
Proof.
  unfold all3. rewrite !elem_of_union, !elem_of_singleton. tauto.
Qed.


(** A reconcile of one node leaves the other nodes, their node states and
    the pool configurations as they are. *)
Lemma Reconcile_other (ext : Externals) (m n : string) (c : Cluster) :
  m <> n ->
  nodes (Reconcile ext m c).2 !! n = nodes c !! n /\
  nodeStates (Reconcile ext m c).2 !! n = nodeStates c !! n /\
  poolConfigs (Reconcile ext m c).2 = poolConfigs c /\
  defaultPoolConfig (Reconcile ext m c).2 = defaultPoolConfig c.
Proof.
  intros Hne. unfold Reconcile.
  repeat case_match; simpl;
    rewrite ?lookup_insert_ne, ?lookup_alter_ne by done; done.
Qed.

Section Cordon.







End Cordon.

Section Uncapped.

Lemma stage_self (ext : Externals) (n : string) (c : Cluster) (k : nat) :
  cooperative ext n -> stage k c n -> stage (S k) (Reconcile ext n c).2 n.
Proof.
  intros [Hb Hd] (nd & ps & Hn & Hw & Hps & Hmu & Hk).
  assert (Hcap : capOf c (poolOf (poolConfigs c) nd) = inl Unlimited)
    by (unfold capOf; by rewrite Hps, Hmu).
  unfold Reconcile. rewrite Hn.
  destruct k as [|[|k]].
  - rewrite Hk, Hcap, Hw, Hb. simpl.
    exists (withUnschedulable true nd), ps. simpl.
    split; [by rewrite lookup_alter_eq, Hn|]. split; [done|].
    split.
    { rewrite (poolOf_labels _ (withUnschedulable true nd) nd) by done.
      rewrite <- Hps. by destruct (poolOf (poolConfigs c) nd). }
    split; [done|]. split; [|done].
    rewrite lookup_insert_eq. destruct (poolPaused ext n); auto.
  - destruct Hk as [[Hk|Hk] Hu]; rewrite Hk, Hcap, Hw, Hb, Hd; simpl;
      exists nd, ps; simpl; rewrite lookup_insert_eq;
      (repeat split; try done); by destruct (poolOf (poolConfigs c) nd).
  - destruct Hk as [Hk Hu]. rewrite Hk, Hcap, Hw. simpl. by exists nd, ps.
Qed.

Lemma stage_other (ext : Externals) (m n : string) (c : Cluster) (k : nat) :
  m <> n -> stage k c n -> stage k (Reconcile ext m c).2 n.
Proof.
  intros Hne (nd & ps & Hn & Hw & Hps & Hmu & Hk).
  destruct (Reconcile_other ext m n c Hne) as (Hnodes & Hstates & Hpcs & Hdef).
  exists nd, ps. rewrite Hnodes, Hstates, Hpcs. repeat split; try done.
  destruct (poolOf (poolConfigs c) nd); simpl in *; by rewrite ?Hpcs, ?Hdef.
Qed.

Lemma stage_top (k : nat) (c : Cluster) (n : string) :
  2 <= k -> stage k c n -> drained c n.
Proof.
  intros Hk (nd & ps & Hn & _ & _ & _ & Hst).
  destruct k as [|[|k]]; [lia|lia|]. destruct Hst as [Hst Hu].
  split; [by apply grantOf_lookup|eauto].
Qed.

Lemma execute_stage (n : string) (sched : list (Externals * string)) (c : Cluster) (k : nat) :
  Forall (fun x => x.2 = n -> cooperative x.1 x.2) sched ->
  stage k c n -> stage (k + reconciled n sched) (execute (schedule sched) c) n.
Proof.
  revert c k. induction sched as [|[ext m] sched IH]; intros c k Hall Hk.
  - unfold reconciled; simpl. by rewrite Nat.add_0_r.
  - inversion Hall as [|? ? Hm Hrest]; subst. simpl in Hm.
    unfold reconciled. rewrite filter_cons. simpl. case_decide as Hmn.
    + subst m. simpl. rewrite Nat.add_succ_r, <- Nat.add_succ_l.
      apply IH; [done|]. apply stage_self; auto.
    + apply IH; [done|]. by apply stage_other.
Qed.

Lemma requestsUncapped_admits (ext : Externals) (n : string) (c : Cluster) (ready : bool) :
  requestsUncapped c n -> beforeDrain ext n = inl ready -> admits ext n c.
Proof.
  intros (nd & ps & Hn & Hw & Hps & Hmu & Hk) Hb.
  assert (Hcap : capOf c (poolOf (poolConfigs c) nd) = inl Unlimited)
    by (unfold capOf; by rewrite Hps, Hmu).
  split; [by apply grantOf_lookup|].
  unfold Reconcile. rewrite Hn, Hk, Hcap, Hw, Hb. simpl.
  rewrite grantOf_setGrant, decide_True by done.
  destruct (poolPaused ext n); auto.
Qed.

End Uncapped.


(** C7: in a pool whose MaxUnavailable is unset, a node that requests a
    drain is admitted whatever the number of drains under way; and when
    the hooks are ready and the drainer completes, every node of a set of
    such nodes that is reconciled twice is at [DrainComplete] and
    cordoned at the end, all of them together. *)
Theorem unset_cap_admits_all (c : Cluster) (ns : gset string)
    (sched : list (Externals * string)) :
  set_Forall (requestsUncapped c) ns ->
  Forall (fun x => x.2 ∈ ns -> cooperative x.1 x.2) sched ->
  set_Forall (fun n => 2 <= reconciled n sched) ns ->
  (forall ext n ready, n ∈ ns -> beforeDrain ext n = inl ready -> admits ext n c)
  /\ set_Forall (drained (execute (schedule sched) c)) ns.
Proof.
  intros Hreq Hcoop Htwice. split.
  - intros ext n ready Hn. apply requestsUncapped_admits. by apply Hreq.
  - intros n Hn. apply (stage_top (0 + reconciled n sched)); [by apply Htwice|].
    apply execute_stage; [|by apply Hreq].
    eapply Forall_impl; [exact Hcoop|]. intros [ext m]; simpl. intros Hx <-. auto.
Qed.


Lemma test_cluster_requests :
  set_Forall (requestsUncapped (execute requests3 (test_cluster None))) all3.
Proof.
  intros n Hn.
  exists (withRequest (Some RDrainRequired) idle_node),
         {| nodeSelector := {[ "test" := "" ]}; MaxUnavailable := None |}.
  apply elem_of_all3 in Hn as [-> | [-> | ->]];
    (split; [vm_compute; reflexivity|]); (split; [reflexivity|]);
    (split; [vm_compute; reflexivity|]); (split; [reflexivity|]);
    vm_compute; reflexivity.
Qed.

Lemma twice3_twice : set_Forall (fun n => 2 <= reconciled n twice3) all3.
Proof.
  intros n Hn. apply elem_of_all3 in Hn as [-> | [-> | ->]]; vm_compute; lia.
Qed.


(** The test "should drain nodes in parallel with a custom pool selector
    and honor MaxUnavailable": with a cap of 2, two of the three nodes are
    at [DrainComplete] and the third is still at [Idle]. *)
Example cap2_two_of_three :
  concurrent (execute (requests3 ++ schedule twice3) (test_cluster (Some (Absolute 2))))
    (Some "test-workers") = 2 /\
  grantOf (execute (requests3 ++ schedule twice3) (test_cluster (Some (Absolute 2))))
    "node3" = Some GIdle.
Proof. split; vm_compute; reflexivity. Qed.

(** The fleet of the tests with MaxUnavailable unset: the three nodes are
    at [DrainComplete] and cordoned together. *)
Lemma unset_cap_admits_all_witness :
  set_Forall (drained (execute (schedule twice3) (execute requests3 (test_cluster None))))
    all3.
Proof.
  refine (proj2 (unset_cap_admits_all (execute requests3 (test_cluster None)) all3 twice3
                   _ _ _)).
  - exact test_cluster_requests.
  - repeat constructor.
  - exact twice3_twice.
Defined.



End CoordinatorProps.
